(** * A shallow embedding of raytracer.py

    The tracer evaluates the same per-ray formulas on whole numpy batches;
    every numeric operation of the source is element-wise, and the control
    flow (the loops over the scene and the bounce test) is shared by the
    whole batch.  The embedding below is therefore the semantics of one ray
    of the batch.

    The program is embedded in two layers.

    - The control flow of the tracer (the resolver, the shadow mask, the
      reflection depth, the accumulation of colours, the exceptions, the
      driver) is embedded over the real numbers: [+], [*], [sqrt] and the
      comparisons are the exact ones of [R].  The properties stated on this
      layer use the numbers only through comparisons, minima, sums taken in
      the order of the source and products with 0 and 1, which binary64
      preserves.
    - The numeric kernel ([Vector3D.norm] and [Sphere.intersect]) is embedded
      a second time, in module [Binary64], over IEEE binary64 numbers, with
      every operation rounded as the program rounds it.  What is stated about
      the values these functions return is stated on that layer. *)

From Stdlib Require Import Reals Lra Lia ZArith List Bool.
From Stdlib Require Import Zfloor ROrderedType.
From Stdlib Require PrimFloat FloatAxioms Uint63.
Import ListNotations.

Open Scope R_scope.

(** ** Vector logic (class Vector3D)

    The components are real numbers here; the program holds binary64
    numbers, for which see [Binary64.Vector3D]. *)

Record Vector3D : Type := mkVector3D { vx : R; vy : R; vz : R }.

Definition Color := Vector3D.

(** [__mul__]: scaling by a scalar. *)
Definition vmul (v : Vector3D) (k : R) : Vector3D :=
  mkVector3D (vx v * k) (vy v * k) (vz v * k).

(** [__add__] and [__sub__]. *)
Definition vadd (v w : Vector3D) : Vector3D :=
  mkVector3D (vx v + vx w) (vy v + vy w) (vz v + vz w).

Definition vsub (v w : Vector3D) : Vector3D :=
  mkVector3D (vx v - vx w) (vy v - vy w) (vz v - vz w).

Definition dot (v w : Vector3D) : R :=
  (vx v * vx w) + (vy v * vy w) + (vz v * vz w).

(** [__abs__] is the squared norm in the source: [self.dot(self)]. *)
Definition vabs (v : Vector3D) : R := dot v v.

(** [np.where(mag == 0, 1, mag)]: the divisor used by [norm].  Over [R] the
    guard fires for the zero vector only; in binary64 it also fires when the
    squared norm underflows to 0 ([Binary64.norm_divisor]). *)
Definition norm_divisor (v : Vector3D) : R :=
  let mag := sqrt (vabs v) in
  if Reqb mag 0 then 1 else mag.

Definition norm (v : Vector3D) : Vector3D :=
  vmul v (1 / norm_divisor v).

Definition vzero : Vector3D := mkVector3D 0 0 0.

(** The magnitude of a vector, as the specification speaks of it. *)
Definition magnitude (v : Vector3D) : R := sqrt (vabs v).

(** A numpy boolean used as a factor: [True] is 1 and [False] is 0. *)
Definition b2r (b : bool) : R := if b then 1 else 0.

Definition Rltb (a b : R) : bool := if Rlt_dec a b then true else false.

(** ** Module constants *)

Definition LightPosition : Vector3D := mkVector3D 5 5 (-10).
Definition CameraPosition : Vector3D := mkVector3D 0 0.35 (-1).
Definition FAR_AWAY : R := 1e39.

(** ** Scene geometry (class Sphere and its subclass CheckeredSphere) *)

Inductive sphere_class : Type := Sphere_class | CheckeredSphere_class.

(** A sphere object.  [ident] is the identity of the Python object (what
    [id(self)] returns): the classes define no [__eq__], so [scene.index]
    compares objects by identity.  The other fields are the instance
    attributes set by [Sphere.__init__], which both classes share. *)
Record Sphere : Type := mkSphere {
  ident : nat;
  cls : sphere_class;
  center : Vector3D;
  radius : R;
  diffuse_color : Color;
  mirror : R
}.

Definition same_object (s t : Sphere) : bool := Nat.eqb (ident s) (ident t).

(** Two entries of a scene with the same identity are the same object. *)
Definition identity_sound (scene : list Sphere) : Prop :=
  forall s t, In s scene -> In t scene -> ident s = ident t -> s = t.

Definition intersect_b (self : Sphere) (ray_origin ray_direction : Vector3D) : R :=
  2 * dot ray_direction (vsub ray_origin (center self)).

(** [c] is computed as in the source, from the three dot products.  Over
    [R] it equals [|o - center|^2 - radius^2]; in binary64 the two differ by
    cancellation ([Binary64.intersect_c]). *)
Definition intersect_c (self : Sphere) (ray_origin : Vector3D) : R :=
  vabs (center self) + vabs ray_origin - 2 * dot (center self) ray_origin
  - (radius self * radius self).

Definition intersect_disc (self : Sphere) (ray_origin ray_direction : Vector3D) : R :=
  (intersect_b self ray_origin ray_direction) ^ 2 - 4 * intersect_c self ray_origin.

(** The selected root [h]. *)
Definition intersect_h (self : Sphere) (ray_origin ray_direction : Vector3D) : R :=
  let b := intersect_b self ray_origin ray_direction in
  let sq := sqrt (Rmax 0 (intersect_disc self ray_origin ray_direction)) in
  let h0 := (- b - sq) / 2 in
  let h1 := (- b + sq) / 2 in
  if Rltb 0 h0 && Rltb h0 h1 then h0 else h1.

Definition intersect (self : Sphere) (ray_origin ray_direction : Vector3D) : R :=
  let disc := intersect_disc self ray_origin ray_direction in
  let h := intersect_h self ray_origin ray_direction in
  let pred := Rltb 0 disc && Rltb 0 h in
  if pred then h else FAR_AWAY.

(** [Sphere.get_diffuse_color], the only diffuse-colour lookup [light]
    performs.  Neither class overrides it, and [self.diffuse_color] is an
    attribute lookup on the instance: [__init__] stored the colour in the
    instance dictionary under that name, which takes precedence over a plain
    function of the same name found in the class. *)
Definition get_diffuse_color (self : Sphere) (intersection_point : Vector3D) : Color :=
  diffuse_color self.

(** [astype(int)] on a float array: truncation toward zero. *)
Definition astype_int (r : R) : Z :=
  if Rltb r 0 then Zceil r else Zfloor r.

(** The function [CheckeredSphere.diffuse_color] of the class body.  Inside
    it [self.diffuse_color] is again the instance attribute. *)
Definition CheckeredSphere_diffuse_color (self : Sphere) (intersection_point : Vector3D) : Color :=
  let checker :=
    Z.eqb (astype_int (vx intersection_point * 2) mod 2)
          (astype_int (vz intersection_point * 2) mod 2) in
  vmul (diffuse_color self) (b2r checker).

(** The diffuse colour that the specification describes for a checkered
    sphere: parity of [floor(2x)] against parity of [floor(2z)]. *)
Definition checker_parity_equal (p : Vector3D) : bool :=
  Z.eqb (Zfloor (2 * vx p) mod 2) (Zfloor (2 * vz p) mod 2).

Definition spec_checkered_diffuse (self : Sphere) (p : Vector3D) : Color :=
  if checker_parity_equal p then diffuse_color self else vzero.

(** ** Effects: exceptions, a fuel bound and a log of tracer invocations *)

Inductive exn : Type := TypeError | ValueError | IndexError | ZeroDivisionError.

Inductive result (A : Type) : Type :=
| Ok (a : A)
| Raise (e : exn)
| OutOfFuel.
Arguments Ok {A} a.
Arguments Raise {A} e.
Arguments OutOfFuel {A}.

(** One event per invocation of [raytrace], carrying its [bounce] argument. *)
Inductive event : Type := Call_raytrace (bounce : Z).

Definition bounce_of (e : event) : Z := match e with Call_raytrace b => b end.

(** A computation yields the events it performed, in order, and a result. *)
Definition M (A : Type) : Type := (list event * result A)%type.

Definition ret {A} (a : A) : M A := ([], Ok a).

Definition raise {A} (e : exn) : M A := ([], Raise e).

Definition tick (e : event) : M unit := ([e], Ok tt).

Definition bind {A B} (m : M A) (f : A -> M B) : M B :=
  match snd m with
  | Ok a => (fst m ++ fst (f a), snd (f a))
  | Raise e => (fst m, Raise e)
  | OutOfFuel => (fst m, OutOfFuel)
  end.

Notation "x <- m ;; k" := (bind m (fun x => k))
  (at level 61, m at next level, right associativity).
Notation "m ;;; k" := (bind m (fun _ => k))
  (at level 61, right associativity).

Definition events {A} (m : M A) : list event := fst m.
Definition outcome {A} (m : M A) : result A := snd m.

(** [functools.reduce(f, l)] without initial value: a left fold, and a
    [TypeError] on the empty sequence. *)
Definition reduce {A} (f : A -> A -> A) (l : list A) : M A :=
  match l with
  | [] => raise TypeError
  | a :: l' => ret (fold_left f l' a)
  end.

(** [list.index]: position of the first entry that is the object [self]. *)
Fixpoint index_from (scene : list Sphere) (self : Sphere) (i : nat) : M nat :=
  match scene with
  | [] => raise ValueError
  | s :: rest => if same_object s self then ret i else index_from rest self (S i)
  end.

Definition index (scene : list Sphere) (self : Sphere) : M nat :=
  index_from scene self 0.

(** Subscripting a list. *)
Definition getitem {A} (l : list A) (i : nat) : M A :=
  match nth_error l i with
  | Some a => ret a
  | None => raise IndexError
  end.

(** Division of Python floats: division by zero raises. *)
Definition py_div (a b : R) : M R :=
  if Reqb b 0 then raise ZeroDivisionError else ret (a / b).

(** A [for] loop that updates one variable. *)
Fixpoint for_each {A S} (body : S -> A -> M S) (l : list A) (s : S) : M S :=
  match l with
  | [] => ret s
  | a :: l' => s' <- body s a ;; for_each body l' s'
  end.

Definition clip (r lo hi : R) : R := Rmin (Rmax r lo) hi.

(** ** The surface shader and the recursive tracer *)

(** The lit mask of [light]: [light_distances[scene.index(self)] == light_nearest]. *)
Definition see_light_of (self : Sphere) (scene : list Sphere)
    (nudged_point to_light : Vector3D) : M bool :=
  let light_distances := map (fun s => intersect s nudged_point to_light) scene in
  light_nearest <- reduce Rmin light_distances ;;
  i <- index scene self ;;
  own <- getitem light_distances i ;;
  ret (Reqb own light_nearest).

Definition ambient : Color := mkVector3D 0.05 0.05 0.05.

(** The Lambert term added to the colour. *)
Definition diffuse_term (self : Sphere) (intersection_point normal to_light : Vector3D)
    (see_light : bool) : Color :=
  let lambert_value := Rmax (dot normal to_light) 0 in
  vmul (vmul (get_diffuse_color self intersection_point) lambert_value) (b2r see_light).

(** The Blinn-Phong term added to the colour. *)
Definition specular_term (normal to_light to_observer : Vector3D) (see_light : bool) : Color :=
  let phong := dot normal (norm (vadd to_light to_observer)) in
  vmul (vmul (mkVector3D 1 1 1) ((clip phong 0 1) ^ 50)) (b2r see_light).

(** [Sphere.light], with the recursive call to [raytrace] abstracted as
    [rec] so that the tracer below can tie the knot on its fuel. *)
Definition light_with
    (rec : Vector3D -> Vector3D -> list Sphere -> Z -> M Color)
    (self : Sphere) (ray_origin ray_direction : Vector3D) (distance : R)
    (scene : list Sphere) (bounce : Z) : M Color :=
  let intersection_point := vadd ray_origin (vmul ray_direction distance) in
  inv_radius <- py_div 1 (radius self) ;;
  let normal := vmul (vsub intersection_point (center self)) inv_radius in
  let to_light := norm (vsub LightPosition intersection_point) in
  let to_observer := norm (vsub CameraPosition intersection_point) in
  let nudged_point := vadd intersection_point (vmul normal 0.0001) in
  see_light <- see_light_of self scene nudged_point to_light ;;
  let color := ambient in
  let color := vadd color (diffuse_term self intersection_point normal to_light see_light) in
  color <- (if (bounce <? 2)%Z then
              let reflected_direction :=
                norm (vsub ray_direction
                        (vmul (vmul normal 2) (dot ray_direction normal))) in
              reflected <- rec nudged_point reflected_direction scene (bounce + 1)%Z ;;
              ret (vadd color (vmul reflected (mirror self)))
            else ret color) ;;
  ret (vadd color (specular_term normal to_light to_observer see_light)).

(** [raytrace].  Python's call stack is replaced by [fuel]: one unit per
    nested invocation. *)
Fixpoint raytrace (fuel : nat) (ray_origin ray_direction : Vector3D)
    (scene : list Sphere) (bounce : Z) {struct fuel} : M Color :=
  match fuel with
  | O => ([], OutOfFuel)
  | S fuel' =>
      tick (Call_raytrace bounce) ;;;
      let distances := map (fun sphere => intersect sphere ray_origin ray_direction) scene in
      nearest <- reduce Rmin distances ;;
      for_each
        (fun color '(sphere, distance) =>
           shade <- light_with (raytrace fuel') sphere ray_origin ray_direction
                      distance scene bounce ;;
           ret (vadd color (vmul (vmul shade (b2r (negb (Reqb nearest FAR_AWAY))))
                              (b2r (Reqb distance nearest)))))
        (combine scene distances) vzero
  end.

(** [Sphere.light] itself. *)
Definition light (fuel : nat) := light_with (raytrace fuel).

(** ** The locals of [light] and [raytrace], named for the statements below *)

Definition intersection_point_of (ray_origin ray_direction : Vector3D) (distance : R) : Vector3D :=
  vadd ray_origin (vmul ray_direction distance).

Definition normal_of (self : Sphere) (p : Vector3D) : Vector3D :=
  vmul (vsub p (center self)) (1 / radius self).

Definition to_light_of (p : Vector3D) : Vector3D := norm (vsub LightPosition p).

Definition to_observer_of (p : Vector3D) : Vector3D := norm (vsub CameraPosition p).

Definition nudged_point_of (self : Sphere) (p : Vector3D) : Vector3D :=
  vadd p (vmul (normal_of self p) 0.0001).

Definition reflected_direction_of (self : Sphere) (p ray_direction : Vector3D) : Vector3D :=
  norm (vsub ray_direction
          (vmul (vmul (normal_of self p) 2) (dot ray_direction (normal_of self p)))).

(** The distances of one ray to every sphere of the scene, in scene order. *)
Definition distances_of (scene : list Sphere) (ray_origin ray_direction : Vector3D) : list R :=
  map (fun sphere => intersect sphere ray_origin ray_direction) scene.

(** The value [reduce(np.minimum, distances)] has on a non-empty list. *)
Definition minimum_distance (distances : list R) : R :=
  match distances with
  | [] => FAR_AWAY
  | a :: l => fold_left Rmin l a
  end.

(** The lit mask at a point [p] of the sphere [self]. *)
Definition lit (self : Sphere) (scene : list Sphere) (p : Vector3D) : bool :=
  Reqb (intersect self (nudged_point_of self p) (to_light_of p))
       (minimum_distance (distances_of scene (nudged_point_of self p) (to_light_of p))).

Definition diffuse_at (self : Sphere) (scene : list Sphere) (p : Vector3D) : Color :=
  diffuse_term self p (normal_of self p) (to_light_of p) (lit self scene p).

Definition specular_at (self : Sphere) (scene : list Sphere) (p : Vector3D) : Color :=
  specular_term (normal_of self p) (to_light_of p) (to_observer_of p) (lit self scene p).

(** Whether the loop of [raytrace] keeps a sphere's shading:
    [(nearest != FAR_AWAY) * (distance == nearest)] is 1. *)
Definition selected (nearest distance : R) : bool :=
  negb (Reqb nearest FAR_AWAY) && Reqb distance nearest.

(** Sum of the shadings kept by the loop, in scene order, starting from
    [color]. *)
Definition accumulate (nearest : R) (color : Color) (items : list (R * Color)) : Color :=
  fold_left (fun c item => if selected nearest (fst item) then vadd c (snd item) else c)
            items color.

(** Fuel that covers a call of [raytrace] with a given [bounce]. *)
Definition fuel_for (bounce : Z) : nat := S (Z.to_nat (2 - bounce)).

(** What [light] does once the lit mask is known. *)
Definition light_after_mask
    (rec : Vector3D -> Vector3D -> list Sphere -> Z -> M Color)
    (self : Sphere) (ray_origin ray_direction : Vector3D) (distance : R)
    (scene : list Sphere) (bounce : Z) (see_light : bool) : M Color :=
  let p := intersection_point_of ray_origin ray_direction distance in
  let color :=
    vadd ambient (diffuse_term self p (normal_of self p) (to_light_of p) see_light) in
  color <- (if (bounce <? 2)%Z then
              reflected <- rec (nudged_point_of self p)
                             (reflected_direction_of self p ray_direction)
                             scene (bounce + 1)%Z ;;
              ret (vadd color (vmul reflected (mirror self)))
            else ret color) ;;
  ret (vadd color
         (specular_term (normal_of self p) (to_light_of p) (to_observer_of p) see_light)).

(** Number of invocations of [raytrace] caused by one invocation with
    [levels] reflection levels still allowed, on a scene of [n] spheres:
    every invocation shades every sphere, and every shading reflects. *)
Fixpoint trace_calls (n levels : nat) : nat :=
  match levels with
  | O => 1
  | S l => 1 + n * trace_calls n l
  end.

(** Sum of a list of colours, from the left. *)
Definition vsum (colors : list Color) : Color := fold_left vadd colors vzero.

(** The same object seen as an instance of another class. *)
Definition with_class (k : sphere_class) (s : Sphere) : Sphere :=
  mkSphere (ident s) k (center s) (radius s) (diffuse_color s) (mirror s).

(** ** Scenes *)

(** The sphere of the end-to-end scenario: centre (0,0,5), radius 1, red,
    mirror 0, seen from the origin along +z. *)
Definition unit_sphere_ahead : Sphere :=
  mkSphere 0 Sphere_class (mkVector3D 0 0 5) 1 (mkVector3D 1 0 0) 0.

(** Two fully mirrored spheres facing each other along the z axis. *)
Definition mirror_pair : list Sphere :=
  [ mkSphere 0 Sphere_class (mkVector3D 0 0 5) 1 (mkVector3D 1 1 1) 1;
    mkSphere 1 Sphere_class (mkVector3D 0 0 (-5)) 1 (mkVector3D 1 1 1) 1 ].

(** A sphere right below the light and a smaller one between it and the
    light. *)
Definition shaded_sphere : Sphere :=
  mkSphere 0 Sphere_class (mkVector3D 5 0 (-10)) 1 (mkVector3D 1 0 0) 0.

Definition blocker : Sphere :=
  mkSphere 1 Sphere_class (mkVector3D 5 3 (-10)) 0.5 (mkVector3D 0 1 0) 0.

Definition shadow_scene : list Sphere := [shaded_sphere; blocker].

(** Two distinct spheres with the same geometry, so that every ray is at
    exactly the same distance from both. *)
Definition twin_red : Sphere :=
  mkSphere 0 Sphere_class (mkVector3D 0 0 5) 1 (mkVector3D 1 0 0) 0.

Definition twin_blue : Sphere :=
  mkSphere 1 Sphere_class (mkVector3D 0 0 5) 1 (mkVector3D 0 0 1) 0.

Definition twins : list Sphere := [twin_red; twin_blue].

(** The checkered floor of [scene_objects], and a point whose coordinates
    fall on a tile of odd parity. *)
Definition checkered_floor : Sphere :=
  mkSphere 3 CheckeredSphere_class (mkVector3D 0 (-99999.5) 0) 99999
           (mkVector3D 0.75 0.75 0.75) 0.25.

(** The scene of the script; the first three spheres take the default
    mirror coefficient 0.7 of [Sphere.__init__]. *)
Definition scene_objects : list Sphere :=
  [ mkSphere 0 Sphere_class (mkVector3D 0.75 0.1 1) 0.6 (mkVector3D 0 0 1) 0.7;
    mkSphere 1 Sphere_class (mkVector3D (-0.75) 0.1 2.25) 0.6
             (mkVector3D 0.3 0.123 0.321) 0.7;
    mkSphere 2 Sphere_class (mkVector3D (-2.75) 0.1 3.5) 0.6 (mkVector3D 1 0.5 0.25) 0.7;
    checkered_floor ].

Definition odd_tile_point : Vector3D := mkVector3D 0.6 (-0.5) 0.1.

(** A point with a negative [x], where truncation and floor differ. *)
Definition negative_tile_point : Vector3D := mkVector3D (-0.3) (-0.5) 0.1.

(** ** Colours *)

(** A colour with no negative channel. *)
Definition nonneg_color (c : Color) : Prop := 0 <= vx c /\ 0 <= vy c /\ 0 <= vz c.

(** A colour with every channel at least [k]. *)
Definition at_least (k : R) (c : Color) : Prop := k <= vx c /\ k <= vy c /\ k <= vz c.

(** A material that does not absorb more than everything: non-negative
    diffuse colour and mirror coefficient. *)
Definition nonneg_material (s : Sphere) : Prop :=
  nonneg_color (diffuse_color s) /\ 0 <= mirror s.

(** A sphere of radius 0. *)
Definition degenerate_sphere : Sphere :=
  mkSphere 7 Sphere_class (mkVector3D 0 9 0) 0 (mkVector3D 1 1 1) 0.

(** A second sphere further along the z axis, behind [unit_sphere_ahead]. *)
Definition sphere_behind : Sphere :=
  mkSphere 1 Sphere_class (mkVector3D 0 0 10) 1 (mkVector3D 0 1 0) 0.5.

(** ** The driver: screen grid, primary rays and image bytes *)

Definition width : nat := 400.
Definition height : nat := 400.

(** [np.linspace(start, stop, num)]: [num] samples, the last one set to
    [stop] when there are at least two. *)
Definition linspace (start stop : R) (num : nat) : list R :=
  let div := (num - 1)%nat in
  let delta := stop - start in
  let sample (i : nat) :=
    if Nat.ltb 0 div then start + INR i * (delta / INR div)
    else start + INR i * delta in
  map (fun i => if Nat.ltb 1 num && Nat.eqb i (num - 1) then stop else sample i)
      (seq 0 num).

(** [np.tile(a, reps)]: the whole array, [reps] times. *)
Definition tile {A} (a : list A) (reps : nat) : list A := concat (repeat a reps).

(** [np.repeat(a, n)]: every element, [n] times in a row. *)
Definition repeat_each {A} (a : list A) (n : nat) : list A :=
  flat_map (fun x => repeat x n) a.

(** [screen_coordinates] for an image of [w] by [h] pixels: x0, y0, x1, y1. *)
Definition screen_coordinates_of (w h : nat) : R * R * R * R :=
  let aspect_ratio := INR w / INR h in
  (-1, 1 / aspect_ratio + 0.25, 1, -1 / aspect_ratio + 0.25).

Definition x_coordinates_of (w h : nat) : list R :=
  let '(x0, _, x1, _) := screen_coordinates_of w h in
  tile (linspace x0 x1 w) h.

Definition y_coordinates_of (w h : nat) : list R :=
  let '(_, y0, _, y1) := screen_coordinates_of w h in
  repeat_each (linspace y0 y1 h) w.

(** [Vector3D(x_coordinates, y_coordinates, 0)], one vector per pixel. *)
Definition pixel_coordinates_of (w h : nat) : list Vector3D :=
  map (fun xy => mkVector3D (fst xy) (snd xy) 0)
      (combine (x_coordinates_of w h) (y_coordinates_of w h)).

Definition screen_coordinates : R * R * R * R := screen_coordinates_of width height.
Definition x_coordinates : list R := x_coordinates_of width height.
Definition y_coordinates : list R := y_coordinates_of width height.
Definition pixel_coordinates : list Vector3D := pixel_coordinates_of width height.

(** The direction of the primary ray through a pixel:
    [(pixel_coordinates - CameraPosition).norm()]. *)
Definition primary_direction (pixel : Vector3D) : Vector3D :=
  norm (vsub pixel CameraPosition).

(** The colour of a pixel: the call [raytrace(CameraPosition, ..., scene_objects)]
    for its ray. *)
Definition pixel_color (fuel : nat) (pixel : Vector3D) : M Color :=
  raytrace fuel CameraPosition (primary_direction pixel) scene_objects 0.

(** [astype(np.uint8)]: truncation, then the low eight bits. *)
Definition astype_uint8 (r : R) : Z := (astype_int r mod 256)%Z.

(** One channel of one pixel of the image: [(255 * np.clip(c, 0, 1)).astype(np.uint8)].
    The product is the exact one here; the program rounds it to binary64
    before it truncates. *)
Definition pixel_byte (c : R) : Z := astype_uint8 (255 * clip c 0 1).

(** [components()], then one byte per channel. *)
Definition components (v : Vector3D) : R * R * R := (vx v, vy v, vz v).

Definition pixel_bytes (c : Color) : Z * Z * Z :=
  let '(r, g, b) := components c in (pixel_byte r, pixel_byte g, pixel_byte b).

(** ** The numeric kernel in binary64

    [Vector3D], [norm] and [Sphere.intersect] once more, over IEEE binary64
    numbers, with every operation in the order in which the source performs
    it.  The values below are the values the program computes. *)

Module Binary64.
Import PrimFloat.
Local Open Scope float_scope.
Local Set Warnings "-inexact-float".

Record Vector3D : Set := mkVector3D { x : float; y : float; z : float }.

(** [__mul__], [__add__], [__sub__]. *)
Definition vmul (v : Vector3D) (k : float) : Vector3D :=
  mkVector3D (x v * k) (y v * k) (z v * k).

Definition vadd (v w : Vector3D) : Vector3D :=
  mkVector3D (x v + x w) (y v + y w) (z v + z w).

Definition vsub (v w : Vector3D) : Vector3D :=
  mkVector3D (x v - x w) (y v - y w) (z v - z w).

(** [dot]: the sum associates to the left. *)
Definition dot (v w : Vector3D) : float :=
  (x v * x w) + (y v * y w) + (z v * z w).

(** [__abs__]. *)
Definition vabs (v : Vector3D) : float := dot v v.

(** [np.where(mag == 0, 1, mag)]. *)
Definition norm_divisor (v : Vector3D) : float :=
  let mag := sqrt (vabs v) in
  if mag =? 0 then 1 else mag.

Definition norm (v : Vector3D) : Vector3D :=
  vmul v (1 / norm_divisor v).

(** The magnitude of a vector, computed as [norm] computes it. *)
Definition magnitude (v : Vector3D) : float := sqrt (vabs v).

Definition FAR_AWAY : float := 1e39.

(** The attributes of a sphere that [intersect] reads. *)
Record Sphere : Set := mkSphere { center : Vector3D; radius : float }.

(** [np.maximum]: the first argument when it is the larger one or a NaN. *)
Definition maximum (a b : float) : float :=
  if (b <=? a) || is_nan a then a else b.

Definition intersect_b (self : Sphere) (ray_origin ray_direction : Vector3D) : float :=
  2 * dot ray_direction (vsub ray_origin (center self)).

Definition intersect_c (self : Sphere) (ray_origin : Vector3D) : float :=
  vabs (center self) + vabs ray_origin - 2 * dot (center self) ray_origin
  - (radius self * radius self).

(** [b ** 2] on an array is the square [b * b]. *)
Definition intersect_disc (self : Sphere) (ray_origin ray_direction : Vector3D) : float :=
  intersect_b self ray_origin ray_direction * intersect_b self ray_origin ray_direction
  - 4 * intersect_c self ray_origin.



Definition intersect_h (self : Sphere) (ray_origin ray_direction : Vector3D) : float :=
  let b := intersect_b self ray_origin ray_direction in
  let sq := sqrt (maximum 0 (intersect_disc self ray_origin ray_direction)) in
  let h0 := (- b - sq) / 2 in
  let h1 := (- b + sq) / 2 in
  if (0 <? h0) && (h0 <? h1) then h0 else h1.

Definition intersect (self : Sphere) (ray_origin ray_direction : Vector3D) : float :=
  let disc := intersect_disc self ray_origin ray_direction in
  let h := intersect_h self ray_origin ray_direction in
  let pred := (0 <? disc) && (0 <? h) in
  if pred then h else FAR_AWAY.


(** *** Inputs: integers, powers of two, vectors along an axis *)

Definition of_Z (n : Z) : float :=
  if (n <? 0)%Z then - of_uint63 (Uint63.of_Z (- n)) else of_uint63 (Uint63.of_Z n).

(** The number [2 ^ j], for [-1074 <= j <= 1023]. *)
Definition pow2 (j : Z) : float := ldshiftexp 1 (Uint63.of_Z (j + 2101)).

(** The vector with [k] on the axis number [axis] (0, 1 or 2) and 0 elsewhere. *)
Definition axis_vector (axis : Z) (k : float) : Vector3D :=
  if (axis =? 0)%Z then mkVector3D k 0 0
  else if (axis =? 1)%Z then mkVector3D 0 k 0
  else mkVector3D 0 0 k.

(** *** Deciding a statement on every integer of a range *)

Definition zrange (lo hi : Z) : list Z :=
  map (fun i => (lo + Z.of_nat i)%Z) (seq 0 (Z.to_nat (hi - lo + 1))).

Definition all_in (lo hi : Z) (P : Z -> bool) : bool := forallb P (zrange lo hi).

(** The same number, bit for bit. *)
Definition same (a b : float) : bool := Leibniz.eqb a b.

Definition vsame (v w : Vector3D) : bool :=
  same (x v) (x w) && same (y v) (y w) && same (z v) (z w).

(** *** Families of inputs

    Each check below is what the code computes on one input of a family. *)

(** The vector [sign * 2 ^ j] along an axis. *)
Definition pow2_vector (axis sign j : Z) : Vector3D :=
  axis_vector axis (of_Z sign * pow2 j).

(** It is normalised to the unit vector of its axis. *)
Definition norm_pow2_unit (axis sign j : Z) : bool :=
  let v := pow2_vector axis sign j in
  vsame (norm v) (axis_vector axis (of_Z sign)) && same (magnitude (norm v)) 1.

(** It is not zero, its computed magnitude is 0, and it is returned unchanged. *)
Definition norm_pow2_unchanged (axis sign j : Z) : bool :=
  let v := pow2_vector axis sign j in
  negb (of_Z sign * pow2 j =? 0) && same (magnitude v) 0 && vsame (norm v) v.

(** It is not zero and is normalised to the zero vector. *)
Definition norm_pow2_vanishes (axis sign j : Z) : bool :=
  let v := pow2_vector axis sign j in
  negb (of_Z sign * pow2 j =? 0) && vsame (norm v) (axis_vector axis (of_Z sign * 0)).

Definition on_axes (P : Z -> Z -> bool) : bool :=
  all_in 0 2 (fun axis => forallb (P axis) [1; -1]%Z).

(** A vector with integer components. *)
Definition integer_vector (a b c : Z) : Vector3D :=
  mkVector3D (of_Z a) (of_Z b) (of_Z c).

(** One unit in the last place of 1. *)
Definition epsilon : float := 0x1p-52.

(** The magnitude of the normalised vector is within [epsilon] of 1. *)
Definition norm_integer_close (a b c : Z) : bool :=
  ((a =? 0) && (b =? 0) && (c =? 0))%Z ||
  (abs (magnitude (norm (integer_vector a b c)) - 1) <=? epsilon).












End Binary64.

(** * Properties *)

(** ** Comparisons and vectors *)

Lemma Rltb_true (a b : R) : Rltb a b = true <-> a < b.
Proof. unfold Rltb. destruct (Rlt_dec a b); split; intros; auto; discriminate. Qed.

Lemma Rltb_false (a b : R) : Rltb a b = false <-> b <= a.
Proof.
  unfold Rltb. destruct (Rlt_dec a b); split; intros; auto; try discriminate; lra.
Qed.

Lemma Reqb_refl (a : R) : Reqb a a = true.
Proof. apply Reqb_eq. reflexivity. Qed.

Lemma Reqb_false (a b : R) : Reqb a b = false <-> a <> b.
Proof.
  split; intros H.
  - intros E. apply Reqb_eq in E. congruence.
  - destruct (Reqb a b) eqn:E; auto. apply Reqb_eq in E. contradiction.
Qed.

Lemma vector_eq (v w : Vector3D) :
  vx v = vx w -> vy v = vy w -> vz v = vz w -> v = w.
Proof. destruct v, w; simpl; intros; subst; reflexivity. Qed.

(** Equality of two concrete vectors, and the squared norm of a concrete
    direction. *)
Ltac vec_lra := apply vector_eq; simpl; lra.
Ltac unit_vector := unfold vabs, dot; simpl; ring.

Lemma vmul_0 (v : Vector3D) : vmul v 0 = vzero.
Proof. apply vector_eq; simpl; ring. Qed.

Lemma vmul_1 (v : Vector3D) : vmul v 1 = v.
Proof. apply vector_eq; simpl; ring. Qed.

Lemma vadd_zero_r (v : Vector3D) : vadd v vzero = v.
Proof. apply vector_eq; simpl; ring. Qed.

Lemma vadd_zero_l (v : Vector3D) : vadd vzero v = v.
Proof. apply vector_eq; simpl; ring. Qed.

Lemma vabs_vmul (v : Vector3D) (k : R) : vabs (vmul v k) = vabs v * (k * k).
Proof. unfold vabs, dot, vmul; simpl. ring. Qed.

(** ** Vector3D.norm *)

(** ** Sphere.intersect *)

Lemma intersect_c_oc (self : Sphere) (o : Vector3D) :
  intersect_c self o = vabs (vsub o (center self)) - radius self * radius self.
Proof. unfold intersect_c, vabs, dot, vsub; simpl. ring. Qed.

Lemma intersect_hit (self : Sphere) (o d : Vector3D) :
  0 < intersect_disc self o d -> 0 < intersect_h self o d ->
  intersect self o d = intersect_h self o d.
Proof.
  intros Hd Hh. unfold intersect.
  rewrite (proj2 (Rltb_true _ _) Hd), (proj2 (Rltb_true _ _) Hh). reflexivity.
Qed.

Lemma intersect_miss (self : Sphere) (o d : Vector3D) :
  ~ (0 < intersect_disc self o d /\ 0 < intersect_h self o d) ->
  intersect self o d = FAR_AWAY.
Proof.
  intros Hn. unfold intersect.
  destruct (Rltb 0 (intersect_disc self o d)) eqn:E1; simpl; [|reflexivity].
  destruct (Rltb 0 (intersect_h self o d)) eqn:E2; [|reflexivity].
  exfalso. apply Hn. split; apply Rltb_true; assumption.
Qed.

(** A ray from outside, with unit direction [d], aimed at the centre, which
    lies at distance [t] along it. *)
Lemma aimed_ray_disc (self : Sphere) (o d : Vector3D) (t : R) :
  vabs d = 1 -> vsub (center self) o = vmul d t ->
  intersect_b self o d = - 2 * t /\
  intersect_disc self o d = 4 * (radius self * radius self).
Proof.
  intros Hu Ha.
  assert (Hoc : vsub o (center self) = vmul d (- t)).
  { apply vector_eq; simpl;
      [apply (f_equal vx) in Ha|apply (f_equal vy) in Ha|apply (f_equal vz) in Ha];
      simpl in Ha; lra. }
  assert (Hb : intersect_b self o d = - 2 * t).
  { unfold intersect_b. rewrite Hoc.
    replace (dot d (vmul d (- t))) with (vabs d * - t)
      by (unfold vabs, dot, vmul; simpl; ring).
    rewrite Hu. ring. }
  split; [exact Hb|].
  unfold intersect_disc. rewrite Hb, intersect_c_oc, Hoc, vabs_vmul, Hu. ring.
Qed.

Lemma intersect_aimed (self : Sphere) (o d : Vector3D) (t : R) :
  vabs d = 1 ->
  vsub (center self) o = vmul d t ->
  0 < radius self < t ->
  magnitude (vsub (center self) o) = t /\
  intersect self o d = magnitude (vsub (center self) o) - radius self.
Proof.
  intros Hu Ha [Hr Ht].
  assert (Hm : magnitude (vsub (center self) o) = t).
  { unfold magnitude. rewrite Ha, vabs_vmul, Hu, Rmult_1_l. apply sqrt_square. lra. }
  split; [exact Hm|]. rewrite Hm.
  destruct (aimed_ray_disc self o d t Hu Ha) as [Hb Hdisc].
  assert (Hsq : sqrt (Rmax 0 (intersect_disc self o d)) = 2 * radius self).
  { rewrite Hdisc, Rmax_right by nra.
    replace (4 * (radius self * radius self))
      with ((2 * radius self) * (2 * radius self)) by ring.
    apply sqrt_square. lra. }
  assert (Hh : intersect_h self o d = t - radius self).
  { unfold intersect_h. rewrite Hsq, Hb.
    rewrite (proj2 (Rltb_true _ _)) by lra.
    rewrite (proj2 (Rltb_true _ _)) by lra.
    simpl. field. }
  rewrite intersect_hit; rewrite ?Hh, ?Hdisc; nra.
Qed.

(** ** The effect monad *)

Lemma bind_ret_l {A B} (a : A) (f : A -> M B) : bind (ret a) f = f a.
Proof. unfold bind, ret; simpl. destruct (f a); reflexivity. Qed.

Lemma bind_raise {A B} (e : exn) (f : A -> M B) : bind (raise e) f = raise e.
Proof. reflexivity. Qed.

Lemma bind_ok {A B} (m : M A) (f : A -> M B) (a : A) :
  outcome m = Ok a ->
  bind m f = (events m ++ events (f a), outcome (f a)).
Proof. unfold outcome, events, bind. intros ->. reflexivity. Qed.

Lemma bind_ext {A B} (m : M A) (f g : A -> M B) :
  (forall a, f a = g a) -> bind m f = bind m g.
Proof. intros H. unfold bind. destruct (snd m); try reflexivity. rewrite H. reflexivity. Qed.

Lemma outcome_bind_ok {A B} (m : M A) (f : A -> M B) (a : A) :
  outcome m = Ok a -> outcome (bind m f) = outcome (f a).
Proof. intros H. rewrite (bind_ok m f a H). reflexivity. Qed.

Lemma outcome_bind_ret {A B} (m : M A) (g : A -> B) (a : A) :
  outcome m = Ok a -> outcome (bind m (fun x => ret (g x))) = Ok (g a).
Proof. intros H. rewrite (outcome_bind_ok m _ a H). reflexivity. Qed.

Lemma events_bind_ok {A B} (m : M A) (f : A -> M B) (a : A) :
  outcome m = Ok a -> events (bind m f) = events m ++ events (f a).
Proof. intros H. rewrite (bind_ok m f a H). reflexivity. Qed.

Lemma bind_ext_l {A B} (m m' : M A) (f : A -> M B) :
  m = m' -> bind m f = bind m' f.
Proof. intros ->. reflexivity. Qed.

Lemma bind_not_out_of_fuel {A B} (m : M A) (f : A -> M B) :
  outcome m <> OutOfFuel -> (forall a, outcome (f a) <> OutOfFuel) ->
  outcome (bind m f) <> OutOfFuel.
Proof.
  unfold outcome, bind. intros Hm Hf. destruct (snd m); simpl; auto; congruence.
Qed.

Lemma events_bind_incl {A B} (P : event -> Prop) (m : M A) (f : A -> M B) :
  Forall P (events m) -> (forall a, Forall P (events (f a))) ->
  Forall P (events (bind m f)).
Proof.
  unfold events, bind. intros Hm Hf. destruct (snd m); simpl; auto.
  apply Forall_app. split; auto.
Qed.

Lemma for_each_ext {A S} (f g : S -> A -> M S) (l : list A) (s : S) :
  (forall s a, In a l -> f s a = g s a) -> for_each f l s = for_each g l s.
Proof.
  revert s. induction l as [|a l IH]; intros s H; simpl; [reflexivity|].
  rewrite H by (left; reflexivity). apply bind_ext. intros s'.
  apply IH. intros; apply H; right; assumption.
Qed.

Lemma for_each_not_out_of_fuel {A S} (f : S -> A -> M S) (l : list A) (s : S) :
  (forall s a, outcome (f s a) <> OutOfFuel) ->
  outcome (for_each f l s) <> OutOfFuel.
Proof.
  intros H. revert s. induction l as [|a l IH]; intros s; simpl.
  - discriminate.
  - apply bind_not_out_of_fuel; auto.
Qed.

Lemma for_each_events {A S} (P : event -> Prop) (f : S -> A -> M S) (l : list A) (s : S) :
  (forall s a, Forall P (events (f s a))) ->
  Forall P (events (for_each f l s)).
Proof.
  intros H. revert s. induction l as [|a l IH]; intros s; simpl.
  - constructor.
  - apply events_bind_incl; auto.
Qed.

(** ** reduce, index and the nearest distance *)

Lemma fold_left_Rmin_le_init (l : list R) (a : R) : fold_left Rmin l a <= a.
Proof.
  revert a. induction l as [|x l IH]; intros a; simpl; [lra|].
  eapply Rle_trans; [apply IH|apply Rmin_l].
Qed.

Lemma fold_left_Rmin_le_elem (l : list R) (a x : R) :
  In x l -> fold_left Rmin l a <= x.
Proof.
  revert a. induction l as [|y l IH]; intros a Hin; simpl; [contradiction|].
  destruct Hin as [->|Hin].
  - eapply Rle_trans; [apply fold_left_Rmin_le_init|apply Rmin_r].
  - apply IH; assumption.
Qed.

Lemma fold_left_Rmin_In (l : list R) (a : R) :
  fold_left Rmin l a = a \/ In (fold_left Rmin l a) l.
Proof.
  revert a. induction l as [|y l IH]; intros a; simpl; [left; reflexivity|].
  destruct (IH (Rmin a y)) as [H|H].
  - rewrite H. unfold Rmin. destruct (Rle_dec a y); auto.
  - right; right; exact H.
Qed.

Lemma minimum_distance_le (l : list R) (x : R) :
  In x l -> minimum_distance l <= x.
Proof.
  destruct l as [|a l]; simpl; [contradiction|]. intros [->|H].
  - apply fold_left_Rmin_le_init.
  - apply fold_left_Rmin_le_elem; assumption.
Qed.

Lemma minimum_distance_In (l : list R) :
  l <> [] -> In (minimum_distance l) l.
Proof.
  destruct l as [|a l]; [congruence|]. intros _. simpl.
  destruct (fold_left_Rmin_In l a) as [H|H]; auto.
Qed.

(** The minimum does not depend on the order of the reduction. *)
Lemma minimum_distance_unique (l : list R) (m : R) :
  In m l -> (forall x, In x l -> m <= x) -> minimum_distance l = m.
Proof.
  intros Hin Hle.
  assert (Hne : l <> []) by (intros ->; contradiction).
  pose proof (minimum_distance_le l m Hin).
  pose proof (Hle _ (minimum_distance_In l Hne)). lra.
Qed.

Lemma reduce_Rmin (l : list R) :
  l <> [] -> reduce Rmin l = ret (minimum_distance l).
Proof. destruct l; [congruence|reflexivity]. Qed.

Lemma distances_of_nonempty (scene : list Sphere) (o d : Vector3D) :
  scene <> [] -> distances_of scene o d <> [].
Proof. destruct scene; simpl; congruence. Qed.

Lemma index_from_found (scene : list Sphere) (self : Sphere) (i : nat) :
  In self scene ->
  exists k s, index_from scene self i = ret (i + k)%nat /\
              nth_error scene k = Some s /\ ident s = ident self.
Proof.
  revert i. induction scene as [|t rest IH]; intros i Hin; [contradiction|].
  simpl. unfold same_object. destruct (Nat.eqb (ident t) (ident self)) eqn:E.
  - exists 0%nat, t. rewrite Nat.add_0_r. apply Nat.eqb_eq in E. auto.
  - destruct Hin as [->|Hin]; [rewrite Nat.eqb_refl in E; discriminate|].
    destruct (IH (S i) Hin) as (k & s & Hk & Hn & Hs).
    exists (S k), s. rewrite Hk. repeat split; auto; unfold ret; do 2 f_equal; lia.
Qed.

Lemma index_found (scene : list Sphere) (self : Sphere) :
  In self scene ->
  exists k s, index scene self = ret k /\
              nth_error scene k = Some s /\ ident s = ident self.
Proof. intros H. exact (index_from_found scene self 0 H). Qed.

(** The entry that [scene.index(self)] locates is [self] itself. *)
Lemma index_self (scene : list Sphere) (self : Sphere) :
  In self scene -> identity_sound scene ->
  exists k, index scene self = ret k /\ nth_error scene k = Some self.
Proof.
  intros Hin Hid. destruct (index_found scene self Hin) as (k & s & Hk & Hn & Hs).
  exists k. split; [exact Hk|]. rewrite Hn. f_equal.
  apply Hid; auto. eapply nth_error_In; eassumption.
Qed.

(** ** The surface shader *)

Lemma py_div_nonzero (a b : R) : b <> 0 -> py_div a b = ret (a / b).
Proof. intros H. unfold py_div. rewrite (proj2 (Reqb_false b 0) H). reflexivity. Qed.

Lemma py_div_zero (a : R) : py_div a 0 = raise ZeroDivisionError.
Proof. unfold py_div. rewrite Reqb_refl. reflexivity. Qed.

Lemma see_light_of_pure (self : Sphere) (scene : list Sphere) (p l : Vector3D) :
  events (see_light_of self scene p l) = [] /\
  outcome (see_light_of self scene p l) <> OutOfFuel.
Proof.
  unfold see_light_of. destruct scene as [|s0 rest]; [split; [reflexivity|discriminate]|].
  rewrite reduce_Rmin by discriminate. rewrite bind_ret_l.
  assert (Hi : forall sc i, (exists k, index_from sc self i = ret k)
                            \/ index_from sc self i = raise ValueError).
  { induction sc as [|t sc IH]; intros i; simpl; [right; reflexivity|].
    destruct (same_object t self); [left; eauto|apply IH]. }
  unfold index. destruct (Hi (s0 :: rest) 0%nat) as [[k ->]| ->].
  - rewrite bind_ret_l. unfold getitem.
    destruct (nth_error _ k); [rewrite bind_ret_l|]; split; try reflexivity; discriminate.
  - split; [reflexivity|discriminate].
Qed.

Lemma see_light_of_lit (self : Sphere) (scene : list Sphere) (p l : Vector3D) :
  In self scene -> identity_sound scene ->
  see_light_of self scene p l =
  ret (Reqb (intersect self p l) (minimum_distance (distances_of scene p l))).
Proof.
  intros Hin Hid. unfold see_light_of.
  assert (Hne : scene <> []) by (intros ->; contradiction).
  fold (distances_of scene p l).
  rewrite reduce_Rmin by (apply distances_of_nonempty; exact Hne).
  rewrite bind_ret_l.
  destruct (index_self scene self Hin Hid) as (k & -> & Hn).
  rewrite bind_ret_l. unfold getitem, distances_of.
  rewrite nth_error_map, Hn. simpl. rewrite bind_ret_l. reflexivity.
Qed.

(** Even without [identity_sound] the mask is computed without error for a
    sphere of the scene. *)
Lemma see_light_of_ok (self : Sphere) (scene : list Sphere) (p l : Vector3D) :
  In self scene -> exists b, see_light_of self scene p l = ret b.
Proof.
  intros Hin. unfold see_light_of.
  assert (Hne : scene <> []) by (intros ->; contradiction).
  fold (distances_of scene p l).
  rewrite reduce_Rmin by (apply distances_of_nonempty; exact Hne).
  rewrite bind_ret_l.
  destruct (index_found scene self Hin) as (k & s & -> & Hn & _).
  rewrite bind_ret_l. unfold getitem, distances_of.
  rewrite nth_error_map, Hn. simpl. rewrite bind_ret_l. eauto.
Qed.

Lemma light_with_mask rec (self : Sphere) (o d : Vector3D) (dist : R)
    (scene : list Sphere) (bounce : Z) :
  radius self <> 0 ->
  light_with rec self o d dist scene bounce =
  (see_light <- see_light_of self scene
                  (nudged_point_of self (intersection_point_of o d dist))
                  (to_light_of (intersection_point_of o d dist)) ;;
   light_after_mask rec self o d dist scene bounce see_light).
Proof.
  intros Hr. unfold light_with. rewrite (py_div_nonzero 1 _ Hr), bind_ret_l. reflexivity.
Qed.

Lemma light_with_zero_radius rec (self : Sphere) (o d : Vector3D) (dist : R)
    (scene : list Sphere) (bounce : Z) :
  radius self = 0 ->
  light_with rec self o d dist scene bounce = raise ZeroDivisionError.
Proof. intros Hr. unfold light_with. rewrite Hr, py_div_zero. reflexivity. Qed.

(** The shape of [light] for a sphere of the scene. *)
Lemma light_with_lit rec (self : Sphere) (o d : Vector3D) (dist : R)
    (scene : list Sphere) (bounce : Z) :
  radius self <> 0 -> In self scene -> identity_sound scene ->
  light_with rec self o d dist scene bounce =
  light_after_mask rec self o d dist scene bounce
    (lit self scene (intersection_point_of o d dist)).
Proof.
  intros Hr Hin Hid. rewrite (light_with_mask _ _ _ _ _ _ _ Hr).
  rewrite (see_light_of_lit _ _ _ _ Hin Hid), bind_ret_l. reflexivity.
Qed.

Lemma light_with_some_mask rec (self : Sphere) (o d : Vector3D) (dist : R)
    (scene : list Sphere) (bounce : Z) :
  radius self <> 0 -> In self scene ->
  exists b, light_with rec self o d dist scene bounce =
            light_after_mask rec self o d dist scene bounce b.
Proof.
  intros Hr Hin. rewrite (light_with_mask _ _ _ _ _ _ _ Hr).
  destruct (see_light_of_ok self scene
              (nudged_point_of self (intersection_point_of o d dist))
              (to_light_of (intersection_point_of o d dist)) Hin) as [b ->].
  exists b. rewrite bind_ret_l. reflexivity.
Qed.

(** [light] consults the tracer only through calls with [bounce + 1], and
    not at all once [bounce] has reached 2. *)
Lemma light_with_ext rec1 rec2 (self : Sphere) (o d : Vector3D) (dist : R)
    (scene : list Sphere) (bounce : Z) :
  ((bounce < 2)%Z ->
   forall o' d', rec1 o' d' scene (bounce + 1)%Z = rec2 o' d' scene (bounce + 1)%Z) ->
  light_with rec1 self o d dist scene bounce = light_with rec2 self o d dist scene bounce.
Proof.
  intros H. unfold light_with. apply bind_ext; intros inv. apply bind_ext; intros b.
  destruct (bounce <? 2)%Z eqn:E; [|reflexivity].
  apply Z.ltb_lt in E. rewrite (H E). reflexivity.
Qed.

Lemma light_with_events_leaf rec (self : Sphere) (o d : Vector3D) (dist : R)
    (scene : list Sphere) (bounce : Z) :
  (2 <= bounce)%Z -> events (light_with rec self o d dist scene bounce) = [].
Proof.
  intros Hb. unfold light_with.
  assert (E : (bounce <? 2)%Z = false) by (apply Z.ltb_ge; exact Hb).
  rewrite E. unfold py_div. destruct (Reqb (radius self) 0); [reflexivity|].
  rewrite bind_ret_l.
  match goal with |- events (bind ?m _) = _ =>
    destruct (see_light_of_pure self scene
                (vadd (vadd o (vmul d dist))
                   (vmul (vmul (vsub (vadd o (vmul d dist)) (center self))
                            (1 / radius self)) 0.0001))
                (norm (vsub LightPosition (vadd o (vmul d dist))))) as [He _]
  end.
  unfold events, bind in *.
  match goal with |- fst (match snd ?m with _ => _ end) = _ =>
    destruct m as [l r]; simpl in *; subst l; destruct r; reflexivity
  end.
Qed.

Lemma light_with_events (P : event -> Prop) rec (self : Sphere) (o d : Vector3D)
    (dist : R) (scene : list Sphere) (bounce : Z) :
  ((bounce < 2)%Z -> forall o' d', Forall P (events (rec o' d' scene (bounce + 1)%Z))) ->
  Forall P (events (light_with rec self o d dist scene bounce)).
Proof.
  intros H. unfold light_with.
  apply events_bind_incl.
  { unfold py_div. destruct (Reqb (radius self) 0); constructor. }
  intros inv. apply events_bind_incl.
  { match goal with |- Forall _ (events (see_light_of ?s ?sc ?p ?l)) =>
      rewrite (proj1 (see_light_of_pure s sc p l)) end. constructor. }
  intros b. apply events_bind_incl; [|intros; constructor].
  destruct (bounce <? 2)%Z eqn:E; [|constructor].
  apply Z.ltb_lt in E. apply events_bind_incl; [apply (H E)|intros; constructor].
Qed.

Lemma light_with_not_out_of_fuel rec (self : Sphere) (o d : Vector3D)
    (dist : R) (scene : list Sphere) (bounce : Z) :
  ((bounce < 2)%Z -> forall o' d', outcome (rec o' d' scene (bounce + 1)%Z) <> OutOfFuel) ->
  outcome (light_with rec self o d dist scene bounce) <> OutOfFuel.
Proof.
  intros H. unfold light_with.
  apply bind_not_out_of_fuel.
  { unfold py_div. destruct (Reqb (radius self) 0); discriminate. }
  intros inv. apply bind_not_out_of_fuel; [apply see_light_of_pure|].
  intros b. apply bind_not_out_of_fuel; [|intros; discriminate].
  destruct (bounce <? 2)%Z eqn:E; [|discriminate].
  apply Z.ltb_lt in E. apply bind_not_out_of_fuel; [apply (H E)|intros; discriminate].
Qed.

(** ** The recursive tracer *)

Lemma raytrace_step (fuel : nat) (o d : Vector3D) (scene : list Sphere) (bounce : Z) :
  raytrace (S fuel) o d scene bounce =
  (tick (Call_raytrace bounce) ;;;
   nearest <- reduce Rmin (distances_of scene o d) ;;
   for_each
     (fun color '(sphere, distance) =>
        shade <- light fuel sphere o d distance scene bounce ;;
        ret (vadd color (vmul (vmul shade (b2r (negb (Reqb nearest FAR_AWAY))))
                           (b2r (Reqb distance nearest)))))
     (combine scene (distances_of scene o d)) vzero).
Proof. reflexivity. Qed.

Lemma raytrace_events_head (fuel : nat) (o d : Vector3D) (scene : list Sphere) (bounce : Z) :
  exists rest, events (raytrace (S fuel) o d scene bounce) = Call_raytrace bounce :: rest.
Proof.
  rewrite raytrace_step. unfold events, bind at 1, tick. simpl. eauto.
Qed.

(** Fuel beyond [fuel_for bounce] changes nothing. *)
Lemma raytrace_fuel_stable (k : nat) :
  forall (extra : nat) (o d : Vector3D) (scene : list Sphere) (bounce : Z),
    (2 - bounce <= Z.of_nat k)%Z ->
    raytrace (S (k + extra)) o d scene bounce = raytrace (S k) o d scene bounce.
Proof.
  induction k as [|k IH]; intros extra o d scene bounce Hb;
    rewrite !raytrace_step; apply bind_ext; intros _; apply bind_ext; intros nearest;
    apply for_each_ext; intros color [s dist] _; apply bind_ext_l; unfold light;
    apply light_with_ext; intros Hlt o' d'.
  - lia.
  - apply IH. lia.
Qed.

Lemma raytrace_not_out_of_fuel (k : nat) :
  forall (o d : Vector3D) (scene : list Sphere) (bounce : Z),
    (2 - bounce <= Z.of_nat k)%Z ->
    outcome (raytrace (S k) o d scene bounce) <> OutOfFuel.
Proof.
  induction k as [|k IH]; intros o d scene bounce Hb;
    rewrite raytrace_step;
    (apply bind_not_out_of_fuel; [discriminate|]); intros _;
    (apply bind_not_out_of_fuel; [destruct (distances_of scene o d); discriminate|]);
    intros nearest; apply for_each_not_out_of_fuel; intros color [s dist];
    (apply bind_not_out_of_fuel; [|intros; discriminate]);
    apply light_with_not_out_of_fuel; intros Hlt o' d'.
  - lia.
  - apply IH. lia.
Qed.

(** Every invocation of the tracer below a call with [bounce] carries a
    counter between [bounce] and 2 (or [bounce] itself when it exceeds 2). *)
Lemma raytrace_events_bounded (fuel : nat) :
  forall (o d : Vector3D) (scene : list Sphere) (bounce : Z),
    Forall (fun e => (bounce <= bounce_of e <= Z.max bounce 2)%Z)
           (events (raytrace fuel o d scene bounce)).
Proof.
  induction fuel as [|fuel IH]; intros o d scene bounce; [constructor|].
  rewrite raytrace_step.
  apply events_bind_incl; [repeat constructor; simpl; lia|]. intros _.
  apply events_bind_incl; [destruct (distances_of scene o d); constructor|].
  intros nearest. apply for_each_events. intros color [s dist].
  apply events_bind_incl; [|intros; constructor].
  apply light_with_events. intros Hlt o' d'.
  eapply Forall_impl; [|apply IH]. simpl. intros e He. lia.
Qed.

(** The update of the colour in the loop of [raytrace]. *)
Lemma masked_update (nearest dist : R) (color shade : Color) :
  vadd color (vmul (vmul shade (b2r (negb (Reqb nearest FAR_AWAY))))
                   (b2r (Reqb dist nearest)))
  = if selected nearest dist then vadd color shade else color.
Proof.
  unfold selected.
  destruct (Reqb nearest FAR_AWAY), (Reqb dist nearest); simpl;
    apply vector_eq; simpl; ring.
Qed.

Lemma selected_true (nearest dist : R) :
  selected nearest dist = true <-> dist = nearest /\ nearest <> FAR_AWAY.
Proof.
  unfold selected. rewrite andb_true_iff, negb_true_iff, Reqb_false, Reqb_eq. tauto.
Qed.

Lemma loop_accumulate (L : Sphere -> R -> M Color) (nearest : R) :
  forall (items : list (Sphere * R)) (shades : list Color) (c0 : Color),
    Forall2 (fun item shade => outcome (L (fst item) (snd item)) = Ok shade) items shades ->
    outcome (for_each
               (fun color '(sphere, distance) =>
                  shade <- L sphere distance ;;
                  ret (vadd color (vmul (vmul shade (b2r (negb (Reqb nearest FAR_AWAY))))
                                     (b2r (Reqb distance nearest)))))
               items c0)
    = Ok (accumulate nearest c0 (combine (map snd items) shades)).
Proof.
  intros items shades c0 H. revert c0.
  induction H as [|[s dist] shade items shades Hs _ IH]; intros c0; [reflexivity|].
  simpl in *.
  rewrite (outcome_bind_ok _ _ _ (outcome_bind_ret (L s dist) _ shade Hs)).
  rewrite masked_update. apply IH.
Qed.

Lemma light_after_mask_outcome rec (self : Sphere) (o d : Vector3D) (dist : R)
    (scene : list Sphere) (bounce : Z) (b : bool) :
  let p := intersection_point_of o d dist in
  let base := vadd ambient (diffuse_term self p (normal_of self p) (to_light_of p) b) in
  let spec := specular_term (normal_of self p) (to_light_of p) (to_observer_of p) b in
  outcome (light_after_mask rec self o d dist scene bounce b) =
  if (bounce <? 2)%Z then
    match outcome (rec (nudged_point_of self p) (reflected_direction_of self p d)
                       scene (bounce + 1)%Z) with
    | Ok reflected => Ok (vadd (vadd base (vmul reflected (mirror self))) spec)
    | Raise e => Raise e
    | OutOfFuel => OutOfFuel
    end
  else Ok (vadd base spec).
Proof.
  intros p base spec. unfold light_after_mask. fold p. fold base. fold spec.
  destruct (bounce <? 2)%Z; [|reflexivity].
  unfold outcome, bind.
  destruct (rec (nudged_point_of self p) (reflected_direction_of self p d) scene
              (bounce + 1)%Z) as [l [c|e|]]; reflexivity.
Qed.

Lemma light_after_mask_events rec (self : Sphere) (o d : Vector3D) (dist : R)
    (scene : list Sphere) (bounce : Z) (b : bool) :
  let p := intersection_point_of o d dist in
  events (light_after_mask rec self o d dist scene bounce b) =
  if (bounce <? 2)%Z then
    events (rec (nudged_point_of self p) (reflected_direction_of self p d)
                scene (bounce + 1)%Z)
  else [].
Proof.
  intros p. unfold light_after_mask. fold p.
  destruct (bounce <? 2)%Z; [|reflexivity].
  unfold events, bind.
  destruct (rec (nudged_point_of self p) (reflected_direction_of self p d) scene
              (bounce + 1)%Z) as [l [c|e|]]; simpl; rewrite ?app_nil_r; reflexivity.
Qed.

Lemma light_ok rec (self : Sphere) (o d : Vector3D) (dist : R)
    (scene : list Sphere) (bounce : Z) :
  radius self <> 0 -> In self scene ->
  ((bounce < 2)%Z -> forall o' d', exists c, outcome (rec o' d' scene (bounce + 1)%Z) = Ok c) ->
  exists shade, outcome (light_with rec self o d dist scene bounce) = Ok shade.
Proof.
  intros Hr Hin Hrec.
  destruct (light_with_some_mask rec self o d dist scene bounce Hr Hin) as [b ->].
  rewrite light_after_mask_outcome.
  destruct (bounce <? 2)%Z eqn:E; [|eauto].
  apply Z.ltb_lt in E.
  destruct (Hrec E (nudged_point_of self (intersection_point_of o d dist))
              (reflected_direction_of self (intersection_point_of o d dist) d)) as [c ->].
  eauto.
Qed.

Lemma collect_shades (F : Sphere -> M Color) (l : list Sphere) :
  (forall s, In s l -> exists shade, outcome (F s) = Ok shade) ->
  exists shades, Forall2 (fun s shade => outcome (F s) = Ok shade) l shades.
Proof.
  induction l as [|s l IH]; intros H.
  - exists []. constructor.
  - destruct (H s (or_introl eq_refl)) as [shade Hs].
    destruct IH as [shades Hl]; [intros; apply H; right; assumption|].
    exists (shade :: shades). constructor; assumption.
Qed.

Lemma Forall2_items (L : Sphere -> R -> M Color) (f : Sphere -> R)
    (l : list Sphere) (shades : list Color) :
  Forall2 (fun s shade => outcome (L s (f s)) = Ok shade) l shades ->
  Forall2 (fun item shade => outcome (L (fst item) (snd item)) = Ok shade)
          (combine l (map f l)) shades.
Proof. induction 1; simpl; constructor; auto. Qed.

Lemma map_snd_combine_map {A B} (f : A -> B) (l : list A) :
  map snd (combine l (map f l)) = map f l.
Proof. induction l; simpl; congruence. Qed.

(** The result of one invocation of [raytrace], given the results of the
    calls to [light] it makes. *)
Lemma raytrace_accumulates (fuel : nat) (o d : Vector3D) (scene : list Sphere)
    (bounce : Z) (shades : list Color) :
  scene <> [] ->
  Forall2 (fun s shade =>
             outcome (light fuel s o d (intersect s o d) scene bounce) = Ok shade)
          scene shades ->
  outcome (raytrace (S fuel) o d scene bounce) =
  Ok (accumulate (minimum_distance (distances_of scene o d)) vzero
        (combine (distances_of scene o d) shades)).
Proof.
  intros Hne Hs. rewrite raytrace_step.
  rewrite (outcome_bind_ok (tick (Call_raytrace bounce)) _ tt eq_refl).
  rewrite reduce_Rmin by (apply distances_of_nonempty; exact Hne).
  rewrite bind_ret_l.
  rewrite (loop_accumulate (fun s dist => light fuel s o d dist scene bounce)
             _ _ shades vzero).
  - unfold distances_of. rewrite map_snd_combine_map. reflexivity.
  - unfold distances_of.
    apply (Forall2_items (fun s dist => light fuel s o d dist scene bounce)). exact Hs.
Qed.

(** On a non-empty scene of spheres with nonzero radius the tracer returns
    a colour. *)
Lemma raytrace_ok (k : nat) (scene : list Sphere) :
  scene <> [] -> Forall (fun s => radius s <> 0) scene ->
  forall (o d : Vector3D) (bounce : Z),
    (2 - bounce <= Z.of_nat k)%Z ->
    exists shades,
      Forall2 (fun s shade =>
                 outcome (light k s o d (intersect s o d) scene bounce) = Ok shade)
              scene shades /\
      outcome (raytrace (S k) o d scene bounce) =
      Ok (accumulate (minimum_distance (distances_of scene o d)) vzero
            (combine (distances_of scene o d) shades)).
Proof.
  intros Hne Hr. rewrite Forall_forall in Hr.
  induction k as [|k IH]; intros o d bounce Hb.
  - destruct (collect_shades
                (fun s => light 0 s o d (intersect s o d) scene bounce) scene) as [shades Hs].
    { intros s Hin. apply light_ok; auto. intros; lia. }
    exists shades. split; [exact Hs|]. apply raytrace_accumulates; assumption.
  - destruct (collect_shades
                (fun s => light (S k) s o d (intersect s o d) scene bounce) scene)
      as [shades Hs].
    { intros s Hin. apply light_ok; auto. intros Hlt o' d'.
      destruct (IH o' d' (bounce + 1)%Z) as (sh & _ & ->); [lia|eauto]. }
    exists shades. split; [exact Hs|]. apply raytrace_accumulates; assumption.
Qed.

Lemma loop_events (L : Sphere -> R -> M Color) (nearest : R) :
  forall (items : list (Sphere * R)) (shades : list Color) (c0 : Color),
    Forall2 (fun item shade => outcome (L (fst item) (snd item)) = Ok shade) items shades ->
    events (for_each
              (fun color '(sphere, distance) =>
                 shade <- L sphere distance ;;
                 ret (vadd color (vmul (vmul shade (b2r (negb (Reqb nearest FAR_AWAY))))
                                    (b2r (Reqb distance nearest)))))
              items c0)
    = concat (map (fun item => events (L (fst item) (snd item))) items).
Proof.
  intros items shades c0 H. revert c0.
  induction H as [|[s dist] shade items shades Hs _ IH]; intros c0; [reflexivity|].
  simpl in *.
  rewrite (events_bind_ok _ _ _ (outcome_bind_ret (L s dist) _ shade Hs)).
  rewrite (events_bind_ok _ _ _ Hs). simpl. rewrite app_nil_r, IH. reflexivity.
Qed.

(** The invocations of the tracer made by [light] are those of its one
    reflected trace, which is made whenever [bounce < 2]. *)
Lemma light_with_events_reflect rec (self : Sphere) (o d : Vector3D) (dist : R)
    (scene : list Sphere) (bounce : Z) :
  radius self <> 0 -> In self scene ->
  events (light_with rec self o d dist scene bounce) =
  if (bounce <? 2)%Z then
    events (rec (nudged_point_of self (intersection_point_of o d dist))
                (reflected_direction_of self (intersection_point_of o d dist) d)
                scene (bounce + 1)%Z)
  else [].
Proof.
  intros Hr Hin.
  destruct (light_with_some_mask rec self o d dist scene bounce Hr Hin) as [b ->].
  apply light_after_mask_events.
Qed.

Lemma length_concat_const {A B} (f : A -> list B) (l : list A) (c : nat) :
  (forall a, In a l -> length (f a) = c) ->
  length (concat (map f l)) = (length l * c)%nat.
Proof.
  induction l as [|a l IH]; intros H; simpl; [reflexivity|].
  rewrite length_app, (H a (or_introl eq_refl)), IH; [reflexivity|].
  intros; apply H; right; assumption.
Qed.

Lemma raytrace_events_shape (k : nat) (scene : list Sphere) (o d : Vector3D) (bounce : Z) :
  scene <> [] -> Forall (fun s => radius s <> 0) scene ->
  (2 - bounce <= Z.of_nat k)%Z ->
  events (raytrace (S k) o d scene bounce) =
  Call_raytrace bounce ::
  concat (map (fun item => events (light k (fst item) o d (snd item) scene bounce))
              (combine scene (distances_of scene o d))).
Proof.
  intros Hne Hr Hb.
  destruct (raytrace_ok k scene Hne Hr o d bounce Hb) as (shades & Hs & _).
  rewrite raytrace_step.
  rewrite (events_bind_ok (tick (Call_raytrace bounce)) _ tt eq_refl).
  rewrite reduce_Rmin by (apply distances_of_nonempty; exact Hne).
  rewrite bind_ret_l.
  rewrite (loop_events (fun s dist => light k s o d dist scene bounce) _ _ shades vzero).
  - reflexivity.
  - unfold distances_of.
    apply (Forall2_items (fun s dist => light k s o d dist scene bounce)). exact Hs.
Qed.

(** The number of invocations does not depend on any mirror coefficient. *)
Lemma raytrace_call_count (k : nat) (scene : list Sphere) :
  scene <> [] -> Forall (fun s => radius s <> 0) scene ->
  forall (o d : Vector3D) (bounce : Z),
    (2 - bounce <= Z.of_nat k)%Z ->
    length (events (raytrace (S k) o d scene bounce)) =
    trace_calls (length scene) (Z.to_nat (2 - bounce)).
Proof.
  intros Hne Hr. pose proof Hr as Hr'. rewrite Forall_forall in Hr'.
  induction k as [|k IH]; intros o d bounce Hb;
    rewrite (raytrace_events_shape _ scene o d bounce Hne Hr Hb); simpl length.
  - replace (Z.to_nat (2 - bounce)) with 0%nat by lia. simpl.
    rewrite (length_concat_const _ _ 0%nat); [lia|].
    intros [s dist] Hin. apply in_combine_l in Hin. simpl. unfold light.
    rewrite light_with_events_leaf; [reflexivity|lia].
  - destruct (bounce <? 2)%Z eqn:E.
    + apply Z.ltb_lt in E.
      replace (Z.to_nat (2 - bounce)) with (S (Z.to_nat (2 - (bounce + 1)))) by lia.
      simpl trace_calls.
      rewrite (length_concat_const _ _ (trace_calls (length scene)
                                          (Z.to_nat (2 - (bounce + 1))))).
      * unfold distances_of. rewrite length_combine, length_map, Nat.min_id. reflexivity.
      * intros [s dist] Hin. apply in_combine_l in Hin. simpl. unfold light.
        rewrite light_with_events_reflect by auto.
        rewrite (proj2 (Z.ltb_lt _ _) E). apply IH. lia.
    + apply Z.ltb_ge in E.
      replace (Z.to_nat (2 - bounce)) with 0%nat by lia. simpl.
      rewrite (length_concat_const _ _ 0%nat); [lia|].
      intros [s dist] Hin. apply in_combine_l in Hin. simpl. unfold light.
      rewrite light_with_events_leaf; [reflexivity|lia].
Qed.

Lemma fuel_for_covers (bounce : Z) : (2 - bounce <= Z.of_nat (Z.to_nat (2 - bounce)))%Z.
Proof. lia. Qed.

Lemma raytrace_enough_fuel (fuel : nat) (o d : Vector3D) (scene : list Sphere) (bounce : Z) :
  (fuel_for bounce <= fuel)%nat ->
  raytrace fuel o d scene bounce = raytrace (fuel_for bounce) o d scene bounce.
Proof.
  unfold fuel_for. intros H.
  replace fuel with (S (Z.to_nat (2 - bounce) + (fuel - S (Z.to_nat (2 - bounce)))))
    by lia.
  apply raytrace_fuel_stable. apply fuel_for_covers.
Qed.

(** The scene of the script meets the assumptions made below, so a primary
    ray through any pixel yields a colour, after 21 invocations of the
    tracer. *)
Lemma scene_objects_rendered (ray_direction : Vector3D) :
  exists color,
    outcome (raytrace 3 CameraPosition ray_direction scene_objects 0) = Ok color /\
    length (events (raytrace 3 CameraPosition ray_direction scene_objects 0)) = 21%nat.
Proof.
  assert (Hne : scene_objects <> []) by discriminate.
  assert (Hr : Forall (fun s => radius s <> 0) scene_objects).
  { unfold scene_objects, checkered_floor. repeat constructor; simpl; lra. }
  destruct (raytrace_ok 2 scene_objects Hne Hr CameraPosition ray_direction 0%Z)
    as (shades & _ & Hout); [simpl; lia|].
  eexists. split; [exact Hout|].
  rewrite (raytrace_call_count 2 scene_objects Hne Hr CameraPosition ray_direction 0%Z);
    [reflexivity|simpl; lia].
Qed.

(** ** The claims about the resolver *)

(** C1.  On a non-empty scene the resolver intersects the ray with every
    sphere and reduces the distances to their minimum, which is one of the
    distances, is below or equal to each of them, and is the only such
    value whatever the order of the reduction; the colour it returns
    is obtained by adding, in scene order, the shading of exactly those
    spheres whose own distance equals that minimum, and of none when the
    minimum is the sentinel. *)
Theorem C1_nearest_hit_resolution (scene : list Sphere) (o d : Vector3D) (bounce : Z) :
  scene <> [] -> Forall (fun s => radius s <> 0) scene ->
  let distances := distances_of scene o d in
  let nearest := minimum_distance distances in
  distances = map (fun s => intersect s o d) scene /\
  reduce Rmin distances = ret nearest /\
  In nearest distances /\
  (forall s, In s scene -> nearest <= intersect s o d) /\
  (forall m, In m distances -> (forall x, In x distances -> m <= x) -> nearest = m) /\
  (forall dist, selected nearest dist = true <-> dist = nearest /\ nearest <> FAR_AWAY) /\
  (forall color dist shade rest,
      accumulate nearest color ((dist, shade) :: rest) =
      accumulate nearest (if selected nearest dist then vadd color shade else color) rest) /\
  exists shades,
    Forall2 (fun s shade =>
               outcome (light (Z.to_nat (2 - bounce)) s o d (intersect s o d) scene bounce)
               = Ok shade) scene shades /\
    forall fuel, (fuel_for bounce <= fuel)%nat ->
      outcome (raytrace fuel o d scene bounce) =
      Ok (accumulate nearest vzero (combine distances shades)).
Proof.
  intros Hne Hr distances nearest.
  assert (Hd : distances <> []) by (apply distances_of_nonempty; exact Hne).
  split; [reflexivity|].
  split; [apply reduce_Rmin; exact Hd|].
  split; [apply minimum_distance_In; exact Hd|].
  split.
  { intros s Hs. apply minimum_distance_le. unfold distances, distances_of.
    apply in_map_iff. exists s. auto. }
  split; [apply minimum_distance_unique|].
  split; [intros dist; apply selected_true|].
  split; [reflexivity|].
  destruct (raytrace_ok (Z.to_nat (2 - bounce)) scene Hne Hr o d bounce
              (fuel_for_covers bounce)) as (shades & Hs & Hout).
  exists shades. split; [exact Hs|].
  intros fuel Hf. rewrite (raytrace_enough_fuel fuel o d scene bounce Hf). exact Hout.
Qed.

Lemma C1_nearest_hit_resolution_witness :
  exists shades,
    outcome (raytrace 3 vzero (mkVector3D 0 0 1) [unit_sphere_ahead] 0) =
    Ok (accumulate
          (minimum_distance (distances_of [unit_sphere_ahead] vzero (mkVector3D 0 0 1)))
          vzero
          (combine (distances_of [unit_sphere_ahead] vzero (mkVector3D 0 0 1)) shades)).
Proof.
  assert (Hne : [unit_sphere_ahead] <> []) by discriminate.
  assert (Hr : Forall (fun s => radius s <> 0) [unit_sphere_ahead]).
  { repeat constructor. simpl. lra. }
  destruct (C1_nearest_hit_resolution [unit_sphere_ahead] vzero (mkVector3D 0 0 1) 0
              Hne Hr) as (_ & _ & _ & _ & _ & _ & _ & shades & _ & H).
  exists shades. apply (H 3%nat). apply le_n.
Defined.

(** C10.  On the empty scene an invocation of [raytrace] raises the
    [TypeError] of the reduction over an empty sequence, and so an
    invocation that returns a colour was given at least one sphere. *)
Theorem C10_empty_scene_raises :
  (forall fuel o d bounce,
      raytrace (S fuel) o d [] bounce = ([Call_raytrace bounce], Raise TypeError)) /\
  (forall fuel o d bounce color,
      outcome (raytrace fuel o d [] bounce) <> Ok color) /\
  (forall fuel o d scene bounce color,
      outcome (raytrace fuel o d scene bounce) = Ok color -> scene <> []).
Proof.
  assert (H : forall fuel o d bounce color,
             outcome (raytrace fuel o d [] bounce) <> Ok color).
  { intros [|fuel] o d bounce color; discriminate. }
  split; [reflexivity|]. split; [exact H|].
  intros fuel o d scene bounce color Hok ->. exact (H _ _ _ _ _ Hok).
Qed.

Lemma C10_empty_scene_raises_witness :
  exists color,
    outcome (raytrace 1 vzero (mkVector3D 0 0 1) [unit_sphere_ahead] 2) = Ok color /\
    [unit_sphere_ahead] <> [].
Proof.
  assert (Hr : Forall (fun s => radius s <> 0) [unit_sphere_ahead]).
  { repeat constructor. simpl. lra. }
  destruct (raytrace_ok 0 [unit_sphere_ahead] ltac:(discriminate) Hr
              vzero (mkVector3D 0 0 1) 2%Z ltac:(simpl; lia)) as (shades & _ & H).
  eexists. split; [exact H|].
  exact (proj2 (proj2 C10_empty_scene_raises) _ _ _ _ _ _ H).
Defined.

(** C6.  The shader invokes the tracer only while [bounce < 2], and then
    with [bounce + 1]; a call with [bounce = 0] therefore never needs more
    than three nested invocations, whatever the scene: it yields a result
    with fuel 3, more fuel changes nothing, and every invocation it makes
    carries a counter between 0 and 2. *)
Theorem C6_bounded_reflection_depth :
  (forall rec self o d dist scene bounce,
      (2 <= bounce)%Z -> events (light_with rec self o d dist scene bounce) = []) /\
  (forall rec1 rec2 self o d dist scene bounce,
      (forall o' d', rec1 o' d' scene (bounce + 1)%Z = rec2 o' d' scene (bounce + 1)%Z) ->
      light_with rec1 self o d dist scene bounce =
      light_with rec2 self o d dist scene bounce) /\
  (forall fuel o d scene,
      (3 <= fuel)%nat -> raytrace fuel o d scene 0 = raytrace 3 o d scene 0) /\
  (forall o d scene, outcome (raytrace 3 o d scene 0) <> OutOfFuel) /\
  (forall o d scene,
      scene <> [] -> Forall (fun s => radius s <> 0) scene ->
      exists color, outcome (raytrace 3 o d scene 0) = Ok color) /\
  (forall fuel o d scene,
      Forall (fun e => (0 <= bounce_of e <= 2)%Z) (events (raytrace fuel o d scene 0))).
Proof.
  split; [intros; apply light_with_events_leaf; assumption|].
  split; [intros; apply light_with_ext; auto|].
  split; [intros fuel o d scene H; apply (raytrace_enough_fuel fuel o d scene 0 H)|].
  split; [intros; apply (raytrace_not_out_of_fuel 2); simpl; lia|].
  split.
  { intros o d scene Hne Hr.
    destruct (raytrace_ok 2 scene Hne Hr o d 0%Z) as (shades & _ & H); [simpl; lia|].
    eauto. }
  intros. apply (raytrace_events_bounded fuel o d scene 0).
Qed.

Lemma C6_bounded_reflection_depth_witness :
  raytrace 7 vzero (mkVector3D 0 0 1) mirror_pair 0 =
  raytrace 3 vzero (mkVector3D 0 0 1) mirror_pair 0 /\
  events (light 7 unit_sphere_ahead vzero (mkVector3D 0 0 1) 4 mirror_pair 2) = [] /\
  exists color, outcome (raytrace 3 vzero (mkVector3D 0 0 1) mirror_pair 0) = Ok color.
Proof.
  split; [|split].
  - apply (proj1 (proj2 (proj2 C6_bounded_reflection_depth))). lia.
  - apply (proj1 C6_bounded_reflection_depth). lia.
  - apply (proj1 (proj2 (proj2 (proj2 (proj2 C6_bounded_reflection_depth))))).
    + discriminate.
    + unfold mirror_pair. repeat constructor; simpl; lra.
Defined.

(** ** The claims about the shader *)

Lemma diffuse_term_shadow (self : Sphere) (p n l : Vector3D) :
  diffuse_term self p n l false = vzero.
Proof. unfold diffuse_term. apply vmul_0. Qed.

Lemma specular_term_shadow (n l v : Vector3D) : specular_term n l v false = vzero.
Proof. unfold specular_term. apply vmul_0. Qed.

(** C3.  For a sphere of the scene, found by [scene.index], the lit mask
    is true exactly when the sphere's own distance along the ray from the
    nudged point (the point moved by 0.0001 along the normal) toward the
    light equals the minimum over the whole scene for that ray; when the
    mask is false the diffuse and specular terms are zero and the shading
    is the ambient colour (0.05 on each channel) plus the reflected part. *)
Theorem C3_shadow_mask rec (self : Sphere) (o d : Vector3D) (dist : R)
    (scene : list Sphere) (bounce : Z) :
  radius self <> 0 -> In self scene -> identity_sound scene ->
  let p := intersection_point_of o d dist in
  let nudged := vadd p (vmul (normal_of self p) 0.0001) in
  let to_light := norm (vsub LightPosition p) in
  let light_nearest := minimum_distance (distances_of scene nudged to_light) in
  (exists i, index scene self = ret i /\ nth_error scene i = Some self /\
             getitem (distances_of scene nudged to_light) i =
             ret (intersect self nudged to_light)) /\
  reduce Rmin (distances_of scene nudged to_light) = ret light_nearest /\
  (forall s, In s scene -> light_nearest <= intersect s nudged to_light) /\
  see_light_of self scene nudged to_light = ret (lit self scene p) /\
  (lit self scene p = true <-> intersect self nudged to_light = light_nearest) /\
  light_with rec self o d dist scene bounce =
  light_after_mask rec self o d dist scene bounce (lit self scene p) /\
  (lit self scene p = false ->
   diffuse_at self scene p = vzero /\
   specular_at self scene p = vzero /\
   ambient = mkVector3D 0.05 0.05 0.05 /\
   outcome (light_with rec self o d dist scene bounce) =
   if (bounce <? 2)%Z then
     match outcome (rec nudged (reflected_direction_of self p d) scene (bounce + 1)%Z) with
     | Ok reflected => Ok (vadd ambient (vmul reflected (mirror self)))
     | Raise e => Raise e
     | OutOfFuel => OutOfFuel
     end
   else Ok ambient).
Proof.
  intros Hr Hin Hid p nudged to_light light_nearest.
  assert (Hne : scene <> []) by (intros ->; contradiction).
  split.
  { destruct (index_self scene self Hin Hid) as (i & Hi & Hn).
    exists i. repeat split; auto.
    unfold getitem, distances_of. rewrite nth_error_map, Hn. reflexivity. }
  split; [apply reduce_Rmin, distances_of_nonempty; exact Hne|].
  split.
  { intros s Hs. apply minimum_distance_le. unfold distances_of.
    apply in_map_iff. exists s. auto. }
  split; [apply (see_light_of_lit self scene nudged to_light Hin Hid)|].
  split; [apply Reqb_eq|].
  split; [apply light_with_lit; assumption|].
  intros Hshadow.
  split; [unfold diffuse_at; rewrite Hshadow; apply diffuse_term_shadow|].
  split; [unfold specular_at; rewrite Hshadow; apply specular_term_shadow|].
  split; [reflexivity|].
  rewrite (light_with_lit rec self o d dist scene bounce Hr Hin Hid).
  fold p. rewrite Hshadow, light_after_mask_outcome. fold p.
  rewrite diffuse_term_shadow, specular_term_shadow, vadd_zero_r.
  destruct (bounce <? 2)%Z; [|rewrite vadd_zero_r; reflexivity].
  change (nudged_point_of self p) with nudged.
  destruct (outcome (rec nudged (reflected_direction_of self p d)
                       scene (bounce + 1)%Z)); try reflexivity.
  rewrite vadd_zero_r. reflexivity.
Qed.

(** A ray that starts outside the sphere and points away from its centre
    misses it. *)
Lemma intersect_pointing_away (self : Sphere) (o d : Vector3D) :
  0 <= intersect_b self o d -> 0 <= intersect_c self o ->
  intersect self o d = FAR_AWAY.
Proof.
  intros Hb Hc. apply intersect_miss. intros [Hd Hh].
  unfold intersect_h in Hh. unfold intersect_disc in *.
  set (b := intersect_b self o d) in *. set (c := intersect_c self o) in *.
  assert (Hs : sqrt (Rmax 0 (b ^ 2 - 4 * c)) <= b).
  { rewrite Rmax_right by lra.
    rewrite <- (sqrt_square b Hb) at 2. apply sqrt_le_1; nra. }
  pose proof (sqrt_pos (Rmax 0 (b ^ 2 - 4 * c))) as Hp.
  destruct (Rltb 0 ((- b - sqrt (Rmax 0 (b ^ 2 - 4 * c))) / 2) &&
            Rltb ((- b - sqrt (Rmax 0 (b ^ 2 - 4 * c))) / 2)
                 ((- b + sqrt (Rmax 0 (b ^ 2 - 4 * c))) / 2)); lra.
Qed.

Lemma norm_along_y (k : R) : 0 < k -> norm (mkVector3D 0 k 0) = mkVector3D 0 1 0.
Proof.
  intros Hk. unfold norm, norm_divisor.
  replace (vabs (mkVector3D 0 k 0)) with (k * k) by (unfold vabs, dot; simpl; ring).
  rewrite sqrt_square by lra.
  rewrite (proj2 (Reqb_false k 0)) by lra.
  apply vector_eq; simpl; field; lra.
Qed.

Lemma identity_sound_distinct (s t : Sphere) :
  ident s <> ident t -> identity_sound [s; t].
Proof.
  intros Hd a b [<-|[<-|[]]] [<-|[<-|[]]] E; congruence.
Qed.

Lemma shadow_scene_geometry :
  let p := intersection_point_of (mkVector3D 5 1 (-12)) (mkVector3D 0 0 1) 2 in
  to_light_of p = mkVector3D 0 1 0 /\
  nudged_point_of shaded_sphere p = mkVector3D 5 1.0001 (-10).
Proof.
  intros p.
  assert (Hp : p = mkVector3D 5 1 (-10)).
  { unfold p, intersection_point_of. vec_lra. }
  rewrite Hp. split.
  - unfold to_light_of.
    replace (vsub LightPosition (mkVector3D 5 1 (-10))) with (mkVector3D 0 4 0)
      by vec_lra.
    apply norm_along_y. lra.
  - unfold nudged_point_of, normal_of. vec_lra.
Qed.

Lemma shadow_scene_unlit :
  lit shaded_sphere shadow_scene
      (intersection_point_of (mkVector3D 5 1 (-12)) (mkVector3D 0 0 1) 2) = false.
Proof.
  destruct shadow_scene_geometry as [Hl Hn]. unfold lit. rewrite Hl, Hn.
  assert (Hown : intersect shaded_sphere (mkVector3D 5 1.0001 (-10)) (mkVector3D 0 1 0)
                 = FAR_AWAY).
  { apply intersect_pointing_away.
    - unfold intersect_b, dot, vsub; simpl. lra.
    - unfold intersect_c, vabs, dot; simpl. lra. }
  assert (Hblock : intersect blocker (mkVector3D 5 1.0001 (-10)) (mkVector3D 0 1 0)
                   = 1.9999 - 0.5).
  { destruct (intersect_aimed blocker (mkVector3D 5 1.0001 (-10)) (mkVector3D 0 1 0) 1.9999)
      as [Hm Hi].
    - unit_vector.
    - vec_lra.
    - simpl. lra.
    - rewrite Hi, Hm. reflexivity. }
  apply Reqb_false. rewrite Hown.
  pose proof (minimum_distance_le
                (distances_of shadow_scene (mkVector3D 5 1.0001 (-10)) (mkVector3D 0 1 0))
                (1.9999 - 0.5)) as Hle.
  assert (Hin : In (1.9999 - 0.5)
                   (distances_of shadow_scene (mkVector3D 5 1.0001 (-10)) (mkVector3D 0 1 0))).
  { unfold distances_of, shadow_scene. simpl. right. left. exact Hblock. }
  specialize (Hle Hin). unfold FAR_AWAY. lra.
Qed.

Lemma C3_shadow_mask_witness :
  lit shaded_sphere shadow_scene
      (intersection_point_of (mkVector3D 5 1 (-12)) (mkVector3D 0 0 1) 2) = false /\
  outcome (light 0 shaded_sphere (mkVector3D 5 1 (-12)) (mkVector3D 0 0 1) 2
             shadow_scene 2) = Ok ambient.
Proof.
  split; [exact shadow_scene_unlit|].
  assert (Hr : radius shaded_sphere <> 0) by (simpl; lra).
  assert (Hin : In shaded_sphere shadow_scene) by (left; reflexivity).
  assert (Hid : identity_sound shadow_scene).
  { apply identity_sound_distinct. simpl. discriminate. }
  pose proof (C3_shadow_mask (raytrace 0) shaded_sphere (mkVector3D 5 1 (-12))
                (mkVector3D 0 0 1) 2 shadow_scene 2 Hr Hin Hid) as H.
  cbv zeta in H. destruct H as (_ & _ & _ & _ & _ & _ & Hshadow).
  destruct (Hshadow shadow_scene_unlit) as (_ & _ & _ & Hout). exact Hout.
Defined.

Lemma light_after_mask_mirror_zero rec (self : Sphere) (o d : Vector3D) (dist : R)
    (scene : list Sphere) (bounce : Z) (b : bool) (shade : Color) :
  mirror self = 0 ->
  outcome (light_after_mask rec self o d dist scene bounce b) = Ok shade ->
  let p := intersection_point_of o d dist in
  shade = vadd (vadd ambient (diffuse_term self p (normal_of self p) (to_light_of p) b))
               (specular_term (normal_of self p) (to_light_of p) (to_observer_of p) b).
Proof.
  intros Hm Hout p. rewrite light_after_mask_outcome in Hout. fold p in Hout.
  destruct (bounce <? 2)%Z; [|congruence].
  destruct (outcome (rec (nudged_point_of self p) (reflected_direction_of self p d)
                       scene (bounce + 1)%Z)); try discriminate.
  rewrite Hm, vmul_0, vadd_zero_r in Hout. congruence.
Qed.

(** C7, as the code has it.  The only guard of the reflection step is
    [bounce < 2]: for a sphere with mirror coefficient 0 the reflected trace
    is still invoked whenever [bounce < 2], and is skipped only once
    [bounce] has reached 2.  What the coefficient 0 gives is a zero
    reflective contribution: the shading is the sum of the ambient, diffuse
    and specular terms.  The number of invocations of the tracer below a
    primary ray is [1 + n * (1 + n)] on a scene of [n] spheres, whatever
    their mirror coefficients. *)
Theorem C7_mirror_zero_reflection rec (self : Sphere) (o d : Vector3D) (dist : R)
    (scene : list Sphere) (bounce : Z) :
  mirror self = 0 -> radius self <> 0 -> In self scene -> identity_sound scene ->
  let p := intersection_point_of o d dist in
  ((bounce < 2)%Z ->
   events (light_with rec self o d dist scene bounce) =
   events (rec (nudged_point_of self p) (reflected_direction_of self p d)
               scene (bounce + 1)%Z)) /\
  ((bounce < 2)%Z ->
   forall fuel, exists rest,
     events (light (S fuel) self o d dist scene bounce) =
     Call_raytrace (bounce + 1) :: rest) /\
  ((2 <= bounce)%Z -> events (light_with rec self o d dist scene bounce) = []) /\
  (forall shade,
      outcome (light_with rec self o d dist scene bounce) = Ok shade ->
      shade = vadd (vadd ambient (diffuse_at self scene p)) (specular_at self scene p)) /\
  (Forall (fun s => radius s <> 0) scene ->
   forall o' d',
     length (events (raytrace 3 o' d' scene 0)) =
     (1 + length scene * (1 + length scene * 1))%nat).
Proof.
  intros Hm Hr Hin Hid p.
  assert (Hne : scene <> []) by (intros ->; contradiction).
  split.
  { intros Hlt. rewrite (light_with_events_reflect rec self o d dist scene bounce Hr Hin).
    rewrite (proj2 (Z.ltb_lt _ _) Hlt). reflexivity. }
  split.
  { intros Hlt fuel. unfold light.
    rewrite (light_with_events_reflect _ self o d dist scene bounce Hr Hin).
    rewrite (proj2 (Z.ltb_lt _ _) Hlt). apply raytrace_events_head. }
  split; [apply light_with_events_leaf|].
  split.
  { intros shade Hout.
    rewrite (light_with_lit rec self o d dist scene bounce Hr Hin Hid) in Hout.
    exact (light_after_mask_mirror_zero rec self o d dist scene bounce _ shade Hm Hout). }
  intros Hall o' d'.
  rewrite (raytrace_call_count 2 scene Hne Hall o' d' 0%Z); [reflexivity|simpl; lia].
Qed.

Lemma singleton_scene_ok (s : Sphere) :
  radius s <> 0 ->
  [s] <> [] /\ Forall (fun t => radius t <> 0) [s] /\ In s [s] /\ identity_sound [s].
Proof.
  intros Hr. repeat split.
  - discriminate.
  - repeat constructor. exact Hr.
  - left; reflexivity.
  - intros a b [<-|[]] [<-|[]] _. reflexivity.
Qed.

Lemma unit_sphere_ahead_radius : radius unit_sphere_ahead <> 0.
Proof. simpl. lra. Qed.

Lemma C7_mirror_zero_reflection_witness :
  exists rest,
    events (light 2 unit_sphere_ahead vzero (mkVector3D 0 0 1) 4 [unit_sphere_ahead] 0) =
    Call_raytrace 1 :: rest.
Proof.
  destruct (singleton_scene_ok unit_sphere_ahead unit_sphere_ahead_radius)
    as (_ & _ & Hin & Hid).
  pose proof (C7_mirror_zero_reflection (raytrace 0) unit_sphere_ahead vzero
                (mkVector3D 0 0 1) 4 [unit_sphere_ahead] 0 eq_refl
                unit_sphere_ahead_radius Hin Hid) as H.
  cbv zeta in H. destruct H as (_ & H & _).
  apply (H ltac:(lia) 1%nat).
Defined.

(** The claim C7 as stated fails: shading a sphere with mirror coefficient
    0 at [bounce = 0] invokes the tracer twice, at [bounce] 1 and 2. *)
Lemma C7_counterexample :
  mirror unit_sphere_ahead = 0 /\
  events (light 2 unit_sphere_ahead vzero (mkVector3D 0 0 1) 4 [unit_sphere_ahead] 0)
  = [Call_raytrace 1; Call_raytrace 2].
Proof.
  split; [reflexivity|].
  destruct (singleton_scene_ok unit_sphere_ahead unit_sphere_ahead_radius)
    as (Hne & Hall & Hin & _).
  unfold light.
  rewrite (light_with_events_reflect _ _ _ _ _ _ _ unit_sphere_ahead_radius Hin).
  simpl (0 <? 2)%Z. cbv iota.
  rewrite (raytrace_events_shape 1 _ _ _ _ Hne Hall) by (simpl; lia).
  simpl combine. simpl map. simpl concat. rewrite app_nil_r. unfold light.
  rewrite (light_with_events_reflect _ _ _ _ _ _ _ unit_sphere_ahead_radius Hin).
  simpl (0 + 1 <? 2)%Z. cbv iota.
  rewrite (raytrace_events_shape 0 _ _ _ _ Hne Hall) by (simpl; lia).
  simpl combine. simpl map. simpl concat. rewrite app_nil_r. unfold light.
  rewrite light_with_events_leaf by (simpl; lia).
  reflexivity.
Qed.

(** ** Ties *)

Lemma accumulate_filter (nearest : R) (items : list (R * Color)) (c : Color) :
  nearest <> FAR_AWAY ->
  accumulate nearest c items =
  fold_left vadd (map snd (filter (fun item => Reqb (fst item) nearest) items)) c.
Proof.
  intros Hn. revert c. induction items as [|[dist shade] items IH]; intros c; [reflexivity|].
  change (accumulate nearest c ((dist, shade) :: items))
    with (accumulate nearest (if selected nearest dist then vadd c shade else c) items).
  unfold selected at 1. rewrite (proj2 (Reqb_false _ _) Hn).
  cbn [negb andb filter fst].
  destruct (Reqb dist nearest); cbn [map snd fold_left]; apply IH.
Qed.

Lemma b2r_nonneg (b : bool) : 0 <= b2r b.
Proof. destruct b; simpl; lra. Qed.

Lemma clip_unit_nonneg (r : R) : 0 <= clip r 0 1.
Proof. unfold clip. apply Rmin_glb; [apply Rmax_r|lra]. Qed.

(** With mirror coefficient 0 and a non-negative red channel, a shading has
    at least the ambient amount of red. *)
Lemma light_red_lower_bound rec (self : Sphere) (o d : Vector3D) (dist : R)
    (scene : list Sphere) (bounce : Z) (shade : Color) :
  mirror self = 0 -> radius self <> 0 -> In self scene ->
  0 <= vx (diffuse_color self) ->
  outcome (light_with rec self o d dist scene bounce) = Ok shade ->
  0.05 <= vx shade.
Proof.
  intros Hm Hr Hin Hc Hout.
  destruct (light_with_some_mask rec self o d dist scene bounce Hr Hin) as [b Hb].
  rewrite Hb in Hout.
  rewrite (light_after_mask_mirror_zero rec self o d dist scene bounce b shade Hm Hout).
  unfold diffuse_term, specular_term, get_diffuse_color, ambient. simpl.
  set (p := intersection_point_of o d dist).
  pose proof (b2r_nonneg b) as H1.
  pose proof (Rmax_r (dot (normal_of self p) (to_light_of p)) 0) as H2.
  pose proof (pow_le _ 50 (clip_unit_nonneg
                (dot (normal_of self p) (norm (vadd (to_light_of p) (to_observer_of p))))))
    as H3.
  assert (0 <= vx (diffuse_color self)
               * Rmax (dot (normal_of self p) (to_light_of p)) 0 * b2r b)
    by (apply Rmult_le_pos; [apply Rmult_le_pos|]; assumption).
  assert (0 <= 1 * clip (dot (normal_of self p)
                           (norm (vadd (to_light_of p) (to_observer_of p)))) 0 1 ^ 50
               * b2r b)
    by (apply Rmult_le_pos; [lra|assumption]).
  lra.
Qed.

Lemma twins_distance :
  intersect twin_red vzero (mkVector3D 0 0 1) = 4 /\
  intersect twin_blue vzero (mkVector3D 0 0 1) = 4.
Proof.
  assert (H : forall s, center s = mkVector3D 0 0 5 -> radius s = 1 ->
                        intersect s vzero (mkVector3D 0 0 1) = 4).
  { intros s Hc Hr.
    destruct (intersect_aimed s vzero (mkVector3D 0 0 1) 5) as [Hm Hi].
    - unit_vector.
    - rewrite Hc. apply vector_eq; simpl; ring.
    - rewrite Hr. lra.
    - rewrite Hi, Hm, Hr. ring. }
  split; apply H; reflexivity.
Qed.

Lemma twins_ok :
  twins <> [] /\ Forall (fun s => radius s <> 0) twins /\
  In twin_red twins /\ In twin_blue twins.
Proof.
  repeat split.
  - discriminate.
  - unfold twins. repeat constructor; simpl; lra.
  - left; reflexivity.
  - right; left; reflexivity.
Qed.

(** C8, as the code has it.  The loop adds the shading of every sphere
    whose distance equals the nearest one: on a hit, the colour returned is
    the sum, in scene order, of the shadings of all the spheres at the
    nearest distance; when two spheres tie, both shadings are added. *)
Theorem C8_ties_accumulate (scene : list Sphere) (o d : Vector3D) (bounce : Z) :
  scene <> [] -> Forall (fun s => radius s <> 0) scene ->
  let distances := distances_of scene o d in
  let nearest := minimum_distance distances in
  nearest <> FAR_AWAY ->
  exists shades,
    Forall2 (fun s shade =>
               outcome (light (Z.to_nat (2 - bounce)) s o d (intersect s o d) scene bounce)
               = Ok shade) scene shades /\
    (forall fuel, (fuel_for bounce <= fuel)%nat ->
       outcome (raytrace fuel o d scene bounce) =
       Ok (vsum (map snd (filter (fun item => Reqb (fst item) nearest)
                            (combine distances shades))))) /\
    (forall s1 s2 shade1 shade2,
       scene = [s1; s2] -> shades = [shade1; shade2] ->
       intersect s1 o d = intersect s2 o d ->
       forall fuel, (fuel_for bounce <= fuel)%nat ->
         outcome (raytrace fuel o d scene bounce) = Ok (vadd (vadd vzero shade1) shade2)).
Proof.
  intros Hne Hr distances nearest Hhit.
  destruct (raytrace_ok (Z.to_nat (2 - bounce)) scene Hne Hr o d bounce
              (fuel_for_covers bounce)) as (shades & Hs & Hout).
  fold distances in Hout. fold nearest in Hout.
  assert (Hsum : forall fuel, (fuel_for bounce <= fuel)%nat ->
             outcome (raytrace fuel o d scene bounce) =
             Ok (vsum (map snd (filter (fun item => Reqb (fst item) nearest)
                                  (combine distances shades))))).
  { intros fuel Hf. rewrite (raytrace_enough_fuel fuel o d scene bounce Hf).
    unfold fuel_for. rewrite Hout.
    rewrite (accumulate_filter nearest _ vzero Hhit). reflexivity. }
  exists shades. split; [exact Hs|]. split; [exact Hsum|].
  intros s1 s2 shade1 shade2 Hscene Hshades Htie fuel Hf.
  rewrite (Hsum fuel Hf). unfold nearest, distances. subst scene shades.
  unfold distances_of, minimum_distance. cbn [map fold_left combine].
  rewrite Htie. replace (Rmin (intersect s2 o d) (intersect s2 o d)) with (intersect s2 o d)
    by (unfold Rmin; destruct (Rle_dec _ _); reflexivity).
  cbn [filter fst]. rewrite Reqb_refl. reflexivity.
Qed.

Lemma C8_ties_accumulate_witness :
  exists shade_red shade_blue,
    outcome (raytrace 3 vzero (mkVector3D 0 0 1) twins 0) =
    Ok (vadd (vadd vzero shade_red) shade_blue).
Proof.
  destruct twins_ok as (Hne & Hr & _ & _). destruct twins_distance as [Hd1 Hd2].
  assert (Hhit : minimum_distance (distances_of twins vzero (mkVector3D 0 0 1)) <> FAR_AWAY).
  { unfold distances_of, twins, minimum_distance. cbn [map fold_left].
    rewrite Hd1, Hd2. unfold Rmin, FAR_AWAY. destruct (Rle_dec 4 4); lra. }
  destruct (C8_ties_accumulate twins vzero (mkVector3D 0 0 1) 0 Hne Hr Hhit)
    as (shades & Hs & _ & Htie).
  inversion Hs as [|s1 sh1 l1 l1' _ Hs' E1 E2]; subst.
  inversion Hs' as [|s2 sh2 l2 l2' _ Hs'' E1 E2]; subst.
  inversion Hs''; subst.
  exists sh1, sh2.
  apply (Htie twin_red twin_blue sh1 sh2 eq_refl eq_refl); [reflexivity|apply le_n].
Defined.

(** The claim C8 as stated fails: with two spheres at exactly the same
    nearest distance the colour returned is the sum of both shadings, which
    differs from the shading of the later sphere. *)
Lemma C8_counterexample :
  exists shade_red shade_blue,
    intersect twin_red vzero (mkVector3D 0 0 1) =
    intersect twin_blue vzero (mkVector3D 0 0 1) /\
    minimum_distance (distances_of twins vzero (mkVector3D 0 0 1)) =
    intersect twin_blue vzero (mkVector3D 0 0 1) /\
    intersect twin_blue vzero (mkVector3D 0 0 1) <> FAR_AWAY /\
    outcome (light 2 twin_red vzero (mkVector3D 0 0 1)
               (intersect twin_red vzero (mkVector3D 0 0 1)) twins 0) = Ok shade_red /\
    outcome (light 2 twin_blue vzero (mkVector3D 0 0 1)
               (intersect twin_blue vzero (mkVector3D 0 0 1)) twins 0) = Ok shade_blue /\
    outcome (raytrace 3 vzero (mkVector3D 0 0 1) twins 0) =
    Ok (vadd (vadd vzero shade_red) shade_blue) /\
    outcome (raytrace 3 vzero (mkVector3D 0 0 1) twins 0) <> Ok shade_blue.
Proof.
  destruct twins_ok as (Hne & Hr & Hin1 & Hin2). destruct twins_distance as [Hd1 Hd2].
  destruct (raytrace_ok 2 twins Hne Hr vzero (mkVector3D 0 0 1) 0%Z) as (shades & Hs & Hout);
    [simpl; lia|].
  inversion Hs as [|s1 sh1 l1 l1' Hl1 Hs' E1 E2]; subst.
  inversion Hs' as [|s2 sh2 l2 l2' Hl2 Hs'' E1 E2]; subst.
  inversion Hs''; subst.
  assert (Hmin : minimum_distance (distances_of twins vzero (mkVector3D 0 0 1)) = 4).
  { unfold distances_of, twins, minimum_distance. cbn [map fold_left].
    rewrite Hd1, Hd2. unfold Rmin. destruct (Rle_dec 4 4); reflexivity. }
  assert (Hsum : outcome (raytrace 3 vzero (mkVector3D 0 0 1) twins 0) =
                 Ok (vadd (vadd vzero sh1) sh2)).
  { rewrite Hout, Hmin. unfold accumulate, distances_of, twins.
    cbn [map combine fold_left fst snd].
    rewrite Hd1, Hd2. unfold selected. rewrite Reqb_refl.
    rewrite (proj2 (Reqb_false 4 FAR_AWAY)) by (unfold FAR_AWAY; lra). reflexivity. }
  exists sh1, sh2.
  split; [rewrite Hd1, Hd2; reflexivity|].
  split; [rewrite Hmin, Hd2; reflexivity|].
  split; [rewrite Hd2; unfold FAR_AWAY; lra|].
  split; [exact Hl1|]. split; [exact Hl2|]. split; [exact Hsum|].
  rewrite Hsum. intros E. injection E as E. rewrite vadd_zero_l in E.
  apply (f_equal vx) in E. cbn [vadd vx] in E.
  pose proof (light_red_lower_bound _ twin_red _ _ _ twins 0%Z sh1 eq_refl
                ltac:(simpl; lra) Hin1 ltac:(simpl; lra) Hl1).
    lra.
Qed.

(** ** The checkered sphere *)

Lemma index_from_with_class (k : sphere_class) (scene : list Sphere) (self : Sphere) (i : nat) :
  index_from scene (with_class k self) i = index_from scene self i.
Proof.
  revert i. induction scene as [|t rest IH]; intros i; simpl; [reflexivity|].
  rewrite IH. reflexivity.
Qed.

(** Nothing in [light] depends on the class of the sphere it shades: the
    shading of a checkered sphere is that of the plain sphere with the same
    attributes. *)
Lemma light_with_class_irrelevant rec (k : sphere_class) (self : Sphere)
    (o d : Vector3D) (dist : R) (scene : list Sphere) (bounce : Z) :
  light_with rec (with_class k self) o d dist scene bounce =
  light_with rec self o d dist scene bounce.
Proof.
  unfold light_with, see_light_of, index. cbn [with_class radius center mirror].
  apply bind_ext; intros inv. rewrite index_from_with_class. reflexivity.
Qed.

Lemma Zfloor_between (z : Z) (r : R) : IZR z <= r < IZR z + 1 -> Zfloor r = z.
Proof. apply Zfloor_eq. Qed.

(** C2 at a point of odd parity.  For the checkered floor of the scene and
    an intersection point with [floor(2x)] odd and [floor(2z)] even, the
    colour the claim prescribes is black, and so is the value of the
    function written in the class body of [CheckeredSphere]; the lookup that
    [light] performs, [get_diffuse_color], returns the base colour, the
    diffuse term is computed from it, and the whole shading is that of a
    plain sphere. *)
Theorem C2_checker_not_applied :
  nth_error scene_objects 3 = Some checkered_floor /\
  cls checkered_floor = CheckeredSphere_class /\
  intersection_point_of (mkVector3D 0.6 0.5 0.1) (mkVector3D 0 (-1) 0) 1 = odd_tile_point /\
  checker_parity_equal odd_tile_point = false /\
  spec_checkered_diffuse checkered_floor odd_tile_point = vzero /\
  CheckeredSphere_diffuse_color checkered_floor odd_tile_point = vzero /\
  get_diffuse_color checkered_floor odd_tile_point = mkVector3D 0.75 0.75 0.75 /\
  get_diffuse_color checkered_floor odd_tile_point <>
  spec_checkered_diffuse checkered_floor odd_tile_point /\
  (forall normal to_light see_light,
      diffuse_term checkered_floor odd_tile_point normal to_light see_light =
      vmul (vmul (mkVector3D 0.75 0.75 0.75) (Rmax (dot normal to_light) 0))
           (b2r see_light)) /\
  (forall rec o d dist scene bounce,
      light_with rec checkered_floor o d dist scene bounce =
      light_with rec (with_class Sphere_class checkered_floor) o d dist scene bounce).
Proof.
  assert (Hx : Zfloor (2 * 0.6) = 1%Z) by (apply Zfloor_between; simpl; lra).
  assert (Hz : Zfloor (2 * 0.1) = 0%Z) by (apply Zfloor_between; simpl; lra).
  assert (Hparity : checker_parity_equal odd_tile_point = false).
  { unfold checker_parity_equal, odd_tile_point. cbn [vx vz]. rewrite Hx, Hz. reflexivity. }
  assert (Hspec : spec_checkered_diffuse checkered_floor odd_tile_point = vzero).
  { unfold spec_checkered_diffuse. rewrite Hparity. reflexivity. }
  split; [reflexivity|]. split; [reflexivity|].
  split; [unfold intersection_point_of, odd_tile_point; vec_lra|].
  split; [exact Hparity|]. split; [exact Hspec|].
  split.
  { unfold CheckeredSphere_diffuse_color, odd_tile_point, astype_int. cbn [vx vz].
    rewrite (proj2 (Rltb_false (0.6 * 2) 0)) by lra.
    rewrite (proj2 (Rltb_false (0.1 * 2) 0)) by lra.
    replace (0.6 * 2) with (2 * 0.6) by lra. replace (0.1 * 2) with (2 * 0.1) by lra.
    rewrite Hx, Hz. cbn [Z.modulo Z.eqb b2r]. apply vmul_0. }
  split; [reflexivity|].
  split.
  { rewrite Hspec. intros E. apply (f_equal vx) in E.
    unfold get_diffuse_color, checkered_floor in E. cbn [diffuse_color vx vzero] in E. lra. }
  split; [reflexivity|].
  intros. symmetry. apply light_with_class_irrelevant.
Qed.

(** The function of the class body, were it called, would not compute the
    parity of the floor either: [astype(int)] truncates toward zero, so on
    negative coordinates its tiles are shifted. *)
Lemma checker_function_truncates :
  checker_parity_equal negative_tile_point = false /\
  CheckeredSphere_diffuse_color checkered_floor negative_tile_point =
  diffuse_color checkered_floor.
Proof.
  assert (Hx : Zfloor (2 * -0.3) = (-1)%Z) by (apply Zfloor_between; simpl; lra).
  assert (Hz : Zfloor (2 * 0.1) = 0%Z) by (apply Zfloor_between; simpl; lra).
  assert (Hc : Zceil (-0.3 * 2) = 0%Z) by (apply Zceil_eq; simpl; lra).
  split.
  - unfold checker_parity_equal, negative_tile_point. cbn [vx vz].
    rewrite Hx, Hz. reflexivity.
  - unfold CheckeredSphere_diffuse_color, negative_tile_point, astype_int. cbn [vx vz].
    rewrite (proj2 (Rltb_true (-0.3 * 2) 0)) by lra.
    rewrite (proj2 (Rltb_false (0.1 * 2) 0)) by lra.
    replace (0.1 * 2) with (2 * 0.1) by lra.
    rewrite Hc, Hz. cbn [Z.modulo Z.eqb b2r]. apply vmul_1.
Qed.
(** * Further properties of the code *)

Lemma unit_sphere_ahead_hit :
  intersect unit_sphere_ahead vzero (mkVector3D 0 0 1) = 4 /\
  intersect_disc unit_sphere_ahead vzero (mkVector3D 0 0 1) = 4.
Proof.
  assert (Hu : vabs (mkVector3D 0 0 1) = 1) by unit_vector.
  assert (Ha : vsub (center unit_sphere_ahead) vzero = vmul (mkVector3D 0 0 1) 5)
    by (apply vector_eq; simpl; ring).
  split.
  - destruct (intersect_aimed unit_sphere_ahead vzero (mkVector3D 0 0 1) 5 Hu Ha)
      as [Hm Hi]; [simpl; lra|]. rewrite Hi, Hm. simpl. ring.
  - destruct (aimed_ray_disc unit_sphere_ahead vzero (mkVector3D 0 0 1) 5 Hu Ha)
      as [_ Hd]. rewrite Hd. simpl. ring.
Qed.

(** ** Colours never go negative *)

Lemma outcome_bind_inv {A B} (m : M A) (f : A -> M B) (b : B) :
  outcome (bind m f) = Ok b ->
  exists a, outcome m = Ok a /\ outcome (f a) = Ok b.
Proof.
  unfold outcome, bind. destruct (snd m) as [a| |]; simpl; try discriminate. eauto.
Qed.

Lemma for_each_invariant {A S} (P : S -> Prop) (body : S -> A -> M S)
    (l : list A) (s0 s : S) :
  P s0 ->
  (forall c a c', In a l -> P c -> outcome (body c a) = Ok c' -> P c') ->
  outcome (for_each body l s0) = Ok s -> P s.
Proof.
  revert s0. induction l as [|a l IH]; intros s0 H0 Hstep Hout; simpl in Hout.
  - injection Hout as <-. exact H0.
  - apply outcome_bind_inv in Hout. destruct Hout as (s1 & H1 & Hrest).
    apply (IH s1); auto.
    + apply (Hstep s0 a s1); auto. left; reflexivity.
    + intros c b c' Hb. apply Hstep. right; exact Hb.
Qed.

Lemma diffuse_term_nonneg (self : Sphere) (p n l : Vector3D) (b : bool) :
  nonneg_color (diffuse_color self) -> nonneg_color (diffuse_term self p n l b).
Proof.
  intros (Hx & Hy & Hz). unfold diffuse_term, get_diffuse_color, nonneg_color. simpl.
  pose proof (Rmax_r (dot n l) 0). pose proof (b2r_nonneg b).
  repeat split; apply Rmult_le_pos; try apply Rmult_le_pos; assumption.
Qed.

Lemma specular_term_nonneg (n l v : Vector3D) (b : bool) :
  nonneg_color (specular_term n l v b).
Proof.
  unfold specular_term, nonneg_color. simpl.
  pose proof (pow_le _ 50 (clip_unit_nonneg (dot n (norm (vadd l v))))).
  pose proof (b2r_nonneg b).
  repeat split; apply Rmult_le_pos; try apply Rmult_le_pos; lra.
Qed.

Lemma light_with_at_least_ambient rec (self : Sphere) (o d : Vector3D) (dist : R)
    (scene : list Sphere) (bounce : Z) (shade : Color) :
  nonneg_material self ->
  (forall o' d' c, outcome (rec o' d' scene (bounce + 1)%Z) = Ok c -> nonneg_color c) ->
  outcome (light_with rec self o d dist scene bounce) = Ok shade ->
  at_least 0.05 shade.
Proof.
  intros [Hc Hm] Hrec Hout. unfold light_with in Hout.
  apply outcome_bind_inv in Hout. destruct Hout as (inv & _ & Hout).
  apply outcome_bind_inv in Hout. destruct Hout as (b & _ & Hout).
  apply outcome_bind_inv in Hout. destruct Hout as (color & Hcolor & Hout).
  injection Hout as <-.
  match type of Hcolor with context [diffuse_term self ?p ?n ?l b] =>
    pose proof (diffuse_term_nonneg self p n l b Hc) as (Dx & Dy & Dz) end.
  match goal with |- context [specular_term ?n ?l ?v b] =>
    pose proof (specular_term_nonneg n l v b) as (Sx & Sy & Sz) end.
  assert (Hbase : at_least 0.05 color).
  { destruct (bounce <? 2)%Z.
    - apply outcome_bind_inv in Hcolor. destruct Hcolor as (reflected & Href & Hcolor).
      injection Hcolor as <-. destruct (Hrec _ _ _ Href) as (Rx & Ry & Rz).
      unfold at_least, ambient. cbn [vadd vmul vx vy vz].
      pose proof (Rmult_le_pos _ _ Rx Hm). pose proof (Rmult_le_pos _ _ Ry Hm).
      pose proof (Rmult_le_pos _ _ Rz Hm). repeat split; lra.
    - injection Hcolor as <-. unfold at_least, ambient. cbn [vadd vmul vx vy vz].
      repeat split; lra. }
  destruct Hbase as (Bx & By & Bz). unfold at_least. cbn [vadd vmul vx vy vz].
  repeat split; lra.
Qed.

Lemma masked_update_nonneg (nearest dist : R) (color shade : Color) :
  nonneg_color color -> nonneg_color shade ->
  nonneg_color (vadd color (vmul (vmul shade (b2r (negb (Reqb nearest FAR_AWAY))))
                              (b2r (Reqb dist nearest)))).
Proof.
  intros (Cx & Cy & Cz) (Sx & Sy & Sz). rewrite masked_update.
  destruct (selected nearest dist); unfold nonneg_color; simpl; repeat split; lra.
Qed.

Lemma raytrace_nonneg (fuel : nat) (scene : list Sphere) :
  Forall nonneg_material scene ->
  forall (o d : Vector3D) (bounce : Z) (color : Color),
    outcome (raytrace fuel o d scene bounce) = Ok color -> nonneg_color color.
Proof.
  intros Hmat. rewrite Forall_forall in Hmat.
  induction fuel as [|fuel IH]; intros o d bounce color Hout; [discriminate|].
  rewrite raytrace_step in Hout.
  apply outcome_bind_inv in Hout. destruct Hout as (_ & _ & Hout).
  apply outcome_bind_inv in Hout. destruct Hout as (nearest & _ & Hout).
  revert Hout. apply for_each_invariant.
  - unfold nonneg_color, vzero. simpl. repeat split; lra.
  - intros c [s dist] c' Hin Hc Hbody.
    apply outcome_bind_inv in Hbody. destruct Hbody as (shade & Hshade & Hbody).
    injection Hbody as <-. apply in_combine_l in Hin.
    apply masked_update_nonneg; [exact Hc|].
    destruct (light_with_at_least_ambient _ s o d dist scene bounce shade
                (Hmat s Hin) (fun o' d' c0 => IH o' d' (bounce + 1)%Z c0) Hshade)
      as (Hx & Hy & Hz).
    unfold nonneg_color. repeat split; lra.
Qed.

(** With non-negative diffuse colours and mirror coefficients, every colour
    the tracer returns has non-negative channels, and every shading has at
    least the ambient 0.05 on each channel. *)
Theorem colors_never_negative (fuel : nat) (scene : list Sphere) :
  Forall nonneg_material scene ->
  (forall o d bounce color,
      outcome (raytrace fuel o d scene bounce) = Ok color -> nonneg_color color) /\
  (forall self o d dist bounce shade,
      In self scene ->
      outcome (light fuel self o d dist scene bounce) = Ok shade ->
      at_least 0.05 shade).
Proof.
  intros Hmat. split; [apply raytrace_nonneg; exact Hmat|].
  intros self o d dist bounce shade Hin Hout. unfold light in Hout.
  apply (light_with_at_least_ambient (raytrace fuel) self o d dist scene bounce shade); auto.
  - rewrite Forall_forall in Hmat. auto.
  - intros o' d' c. apply raytrace_nonneg. exact Hmat.
Qed.

Lemma scene_objects_materials : Forall nonneg_material scene_objects.
Proof.
  unfold scene_objects, checkered_floor, nonneg_material, nonneg_color.
  repeat constructor; simpl; lra.
Qed.

Lemma colors_never_negative_witness :
  exists color,
    outcome (raytrace 3 CameraPosition (mkVector3D 0 0 1) scene_objects 0) = Ok color /\
    nonneg_color color.
Proof.
  destruct (scene_objects_rendered (mkVector3D 0 0 1)) as (color & Hout & _).
  exists color. split; [exact Hout|].
  exact (proj1 (colors_never_negative 3 scene_objects scene_objects_materials)
           _ _ _ _ Hout).
Defined.

(** ** How the shader and the tracer fail *)

Lemma index_from_missing (scene : list Sphere) (self : Sphere) (i : nat) :
  (forall t, In t scene -> ident t <> ident self) ->
  index_from scene self i = raise ValueError.
Proof.
  revert i. induction scene as [|t rest IH]; intros i H; simpl; [reflexivity|].
  unfold same_object. rewrite (proj2 (Nat.eqb_neq _ _) (H t (or_introl eq_refl))).
  apply IH. intros; apply H; right; assumption.
Qed.

(** [light] fails in three ways, each before any recursive trace: with
    [ZeroDivisionError] on a sphere of radius 0 (whatever the scene), with
    [TypeError] on an empty scene, and with [ValueError] when the sphere is
    not an entry of the non-empty scene it is shaded in. *)
Theorem light_failure_modes rec (self : Sphere) (o d : Vector3D) (dist : R)
    (scene : list Sphere) (bounce : Z) :
  (radius self = 0 ->
   light_with rec self o d dist scene bounce = ([], Raise ZeroDivisionError)) /\
  (radius self <> 0 -> scene = [] ->
   light_with rec self o d dist scene bounce = ([], Raise TypeError)) /\
  (radius self <> 0 -> scene <> [] ->
   (forall t, In t scene -> ident t <> ident self) ->
   light_with rec self o d dist scene bounce = ([], Raise ValueError)).
Proof.
  split; [apply light_with_zero_radius|]. split.
  - intros Hr ->. rewrite (light_with_mask _ _ _ _ _ _ _ Hr). reflexivity.
  - intros Hr Hne Hmiss. rewrite (light_with_mask _ _ _ _ _ _ _ Hr).
    unfold see_light_of. fold (distances_of scene
      (nudged_point_of self (intersection_point_of o d dist))
      (to_light_of (intersection_point_of o d dist))).
    rewrite reduce_Rmin by (apply distances_of_nonempty; exact Hne).
    rewrite bind_ret_l. unfold index. rewrite (index_from_missing _ _ _ Hmiss).
    reflexivity.
Qed.

Lemma light_failure_modes_witness :
  light 3 blocker vzero (mkVector3D 0 0 1) 4 [unit_sphere_ahead] 0 =
  ([], Raise ValueError).
Proof.
  apply (proj2 (proj2 (light_failure_modes (raytrace 3) blocker vzero (mkVector3D 0 0 1) 4
                         [unit_sphere_ahead] 0))).
  - simpl. lra.
  - discriminate.
  - intros t [<-|[]]. simpl. discriminate.
Defined.

Lemma for_each_raises {A S} (e : exn) (body : S -> A -> M S) (l : list A) (s0 : S) :
  (forall c a, In a l ->
     (exists c', outcome (body c a) = Ok c') \/ outcome (body c a) = Raise e) ->
  (exists a, In a l /\ forall c, outcome (body c a) = Raise e) ->
  outcome (for_each body l s0) = Raise e.
Proof.
  revert s0. induction l as [|a l IH]; intros s0 Hall (b & Hb & Hraise).
  - contradiction.
  - simpl. destruct (Hall s0 a (or_introl eq_refl)) as [[c' Hok]|Hr].
    + rewrite (outcome_bind_ok _ _ _ Hok).
      destruct Hb as [->|Hb]; [rewrite Hraise in Hok; discriminate|].
      apply IH; [intros; apply Hall; right; assumption|eauto].
    + unfold outcome, bind in *. rewrite Hr. reflexivity.
Qed.

Lemma light_with_ok_or_raises rec (e : exn) (self : Sphere) (o d : Vector3D) (dist : R)
    (scene : list Sphere) (bounce : Z) :
  radius self <> 0 -> In self scene ->
  ((bounce < 2)%Z -> forall o' d', outcome (rec o' d' scene (bounce + 1)%Z) = Raise e) ->
  if (bounce <? 2)%Z
  then outcome (light_with rec self o d dist scene bounce) = Raise e
  else exists shade, outcome (light_with rec self o d dist scene bounce) = Ok shade.
Proof.
  intros Hr Hin Hrec.
  destruct (light_with_some_mask rec self o d dist scene bounce Hr Hin) as [b ->].
  rewrite light_after_mask_outcome.
  destruct (bounce <? 2)%Z eqn:E; [|eauto].
  apply Z.ltb_lt in E. rewrite (Hrec E). reflexivity.
Qed.

Lemma raytrace_zero_radius (k : nat) (scene : list Sphere) :
  (exists s, In s scene /\ radius s = 0) ->
  forall (o d : Vector3D) (bounce : Z),
    (2 - bounce <= Z.of_nat k)%Z ->
    outcome (raytrace (S k) o d scene bounce) = Raise ZeroDivisionError.
Proof.
  intros (z & Hz & Hz0).
  assert (Hne : scene <> []) by (intros ->; contradiction).
  assert (Hstep : forall (rec : Vector3D -> Vector3D -> list Sphere -> Z -> M Color)
                         o d bounce,
             ((bounce < 2)%Z ->
              forall o' d', outcome (rec o' d' scene (bounce + 1)%Z)
                            = Raise ZeroDivisionError) ->
             outcome (tick (Call_raytrace bounce) ;;;
                      nearest <- reduce Rmin (distances_of scene o d) ;;
                      for_each
                        (fun color '(sphere, distance) =>
                           shade <- light_with rec sphere o d distance scene bounce ;;
                           ret (vadd color
                                  (vmul (vmul shade (b2r (negb (Reqb nearest FAR_AWAY))))
                                     (b2r (Reqb distance nearest)))))
                        (combine scene (distances_of scene o d)) vzero)
             = Raise ZeroDivisionError).
  { intros rec o d bounce Hrec.
    rewrite (outcome_bind_ok (tick (Call_raytrace bounce)) _ tt eq_refl).
    rewrite reduce_Rmin by (apply distances_of_nonempty; exact Hne).
    rewrite bind_ret_l. apply for_each_raises.
    - intros c [s dist] Hin. apply in_combine_l in Hin.
      destruct (Req_dec (radius s) 0) as [H0|Hn0].
      + right. rewrite light_with_zero_radius by exact H0. reflexivity.
      + pose proof (light_with_ok_or_raises rec ZeroDivisionError s o d dist scene bounce
                      Hn0 Hin Hrec) as H.
        destruct (bounce <? 2)%Z.
        * right. unfold outcome, bind in *. rewrite H. reflexivity.
        * left. destruct H as [shade H]. rewrite (outcome_bind_ret _ _ _ H). eauto.
    - exists (z, intersect z o d). split.
      + unfold distances_of. clear - Hz. induction scene as [|t rest IH]; [contradiction|].
        simpl. destruct Hz as [->|Hz]; [left; reflexivity|right; auto].
      + intros c. rewrite light_with_zero_radius by exact Hz0. reflexivity. }
  induction k as [|k IH]; intros o d bounce Hb; rewrite raytrace_step; apply Hstep.
  - intros; lia.
  - intros Hlt o' d'. apply IH. lia.
Qed.

(** A scene that contains a sphere of radius 0 cannot be traced at all:
    every ray raises [ZeroDivisionError], whether or not it comes near that
    sphere. *)
Theorem zero_radius_poisons_scene (scene : list Sphere) (s : Sphere) :
  In s scene -> radius s = 0 ->
  forall fuel o d bounce,
    (fuel_for bounce <= fuel)%nat ->
    outcome (raytrace fuel o d scene bounce) = Raise ZeroDivisionError.
Proof.
  intros Hin H0 fuel o d bounce Hf.
  rewrite (raytrace_enough_fuel fuel o d scene bounce Hf). unfold fuel_for.
  apply raytrace_zero_radius; [eauto|apply fuel_for_covers].
Qed.

Lemma zero_radius_poisons_scene_witness :
  outcome (raytrace 3 vzero (mkVector3D 0 0 1) [unit_sphere_ahead; degenerate_sphere] 0)
  = Raise ZeroDivisionError.
Proof.
  apply (zero_radius_poisons_scene [unit_sphere_ahead; degenerate_sphere] degenerate_sphere).
  - right. left. reflexivity.
  - reflexivity.
  - apply le_n.
Defined.

(** ** What the resolver returns *)

Lemma accumulate_none (nearest : R) (items : list (R * Color)) (c : Color) :
  (forall item, In item items -> selected nearest (fst item) = false) ->
  accumulate nearest c items = c.
Proof.
  revert c. induction items as [|item items IH]; intros c H; [reflexivity|].
  change (accumulate nearest c (item :: items))
    with (accumulate nearest
            (if selected nearest (fst item) then vadd c (snd item) else c) items).
  rewrite (H item (or_introl eq_refl)).
  apply IH. intros; apply H; right; assumption.
Qed.

Lemma accumulate_app (nearest : R) (l1 l2 : list (R * Color)) (c : Color) :
  accumulate nearest c (l1 ++ l2) = accumulate nearest (accumulate nearest c l1) l2.
Proof. unfold accumulate. apply fold_left_app. Qed.

Lemma selected_sentinel (dist : R) : selected FAR_AWAY dist = false.
Proof. unfold selected. rewrite Reqb_refl. reflexivity. Qed.

(** A ray that misses every sphere comes back black. *)
Theorem all_miss_is_black (scene : list Sphere) (o d : Vector3D) (bounce : Z) :
  scene <> [] -> Forall (fun s => radius s <> 0) scene ->
  (forall s, In s scene -> intersect s o d = FAR_AWAY) ->
  forall fuel, (fuel_for bounce <= fuel)%nat ->
    outcome (raytrace fuel o d scene bounce) = Ok vzero.
Proof.
  intros Hne Hr Hmiss fuel Hf.
  rewrite (raytrace_enough_fuel fuel o d scene bounce Hf). unfold fuel_for.
  destruct (raytrace_ok (Z.to_nat (2 - bounce)) scene Hne Hr o d bounce
              (fuel_for_covers bounce)) as (shades & _ & ->).
  assert (Hmin : minimum_distance (distances_of scene o d) = FAR_AWAY).
  { pose proof (minimum_distance_In _ (distances_of_nonempty scene o d Hne)) as Hin.
    unfold distances_of in Hin at 2. apply in_map_iff in Hin.
    destruct Hin as (s & Hs & Hin). rewrite <- Hs. apply Hmiss. exact Hin. }
  rewrite Hmin, accumulate_none; [reflexivity|].
  intros item _. apply selected_sentinel.
Qed.

Lemma all_miss_is_black_witness :
  outcome (raytrace 3 vzero (mkVector3D 0 1 0) [unit_sphere_ahead] 0) = Ok vzero.
Proof.
  destruct (singleton_scene_ok unit_sphere_ahead unit_sphere_ahead_radius)
    as (Hne & Hall & _ & _).
  apply (all_miss_is_black [unit_sphere_ahead] vzero (mkVector3D 0 1 0) 0 Hne Hall).
  - intros s [<-|[]]. apply intersect_miss. intros [Hd _].
    unfold intersect_disc, intersect_b, intersect_c, vabs, dot, vsub in Hd.
    simpl in Hd. lra.
  - apply le_n.
Defined.

Lemma combine_app_same {A B} (l1 l2 : list A) (m1 m2 : list B) :
  length l1 = length m1 ->
  combine (l1 ++ l2) (m1 ++ m2) = combine l1 m1 ++ combine l2 m2.
Proof.
  revert m1. induction l1 as [|a l1 IH]; intros [|b m1] H; simpl in *; try discriminate.
  - reflexivity.
  - rewrite IH by lia. reflexivity.
Qed.

Lemma accumulate_losers (nearest : R) (scene : list Sphere) (f : Sphere -> R)
    (shades : list Color) (c : Color) :
  (forall t, In t scene -> nearest < f t) ->
  accumulate nearest c (combine (map f scene) shades) = c.
Proof.
  intros H. apply accumulate_none. intros [dist shade] Hin.
  apply in_combine_l in Hin. apply in_map_iff in Hin. destruct Hin as (t & <- & Ht).
  unfold selected. simpl. rewrite (proj2 (Reqb_false (f t) nearest)).
  - apply andb_false_r.
  - pose proof (H t Ht). lra.
Qed.

(** When one sphere is strictly nearer than all the others along a ray and
    is hit, the colour of the ray is the shading of that sphere alone. *)
Theorem nearest_sphere_wins (before after : list Sphere) (s : Sphere)
    (o d : Vector3D) (bounce : Z) :
  Forall (fun t => radius t <> 0) (before ++ s :: after) ->
  intersect s o d <> FAR_AWAY ->
  (forall t, In t (before ++ after) -> intersect s o d < intersect t o d) ->
  forall fuel, (fuel_for bounce <= fuel)%nat ->
    exists shade,
      outcome (light (Z.to_nat (2 - bounce)) s o d (intersect s o d)
                 (before ++ s :: after) bounce) = Ok shade /\
      outcome (raytrace fuel o d (before ++ s :: after) bounce) = Ok shade.
Proof.
  intros Hr Hhit Hnear fuel Hf. set (scene := before ++ s :: after) in *.
  assert (Hne : scene <> []) by (unfold scene; destruct before; discriminate).
  rewrite (raytrace_enough_fuel fuel o d scene bounce Hf). unfold fuel_for.
  destruct (raytrace_ok (Z.to_nat (2 - bounce)) scene Hne Hr o d bounce
              (fuel_for_covers bounce)) as (shades & Hs & ->).
  unfold scene in Hs. apply Forall2_app_inv_l in Hs.
  destruct Hs as (sh1 & sh2 & Hs1 & Hs2 & ->).
  inversion Hs2 as [|s' shade after' sh3 Hshade Hs3]; subst.
  exists shade. split; [exact Hshade|].
  assert (Hmin : minimum_distance (distances_of scene o d) = intersect s o d).
  { apply minimum_distance_unique.
    - unfold distances_of, scene. apply in_map_iff. exists s. split; [reflexivity|].
      apply in_or_app. right. left. reflexivity.
    - intros x Hx. unfold distances_of, scene in Hx. apply in_map_iff in Hx.
      destruct Hx as (t & <- & Ht). apply in_app_or in Ht.
      destruct Ht as [Ht|[->|Ht]]; [|lra|];
        apply Rlt_le, Hnear, in_or_app; auto. }
  rewrite Hmin. unfold distances_of, scene. rewrite map_app.
  rewrite combine_app_same
    by (rewrite length_map; apply (Forall2_length Hs1)).
  rewrite accumulate_app.
  rewrite (accumulate_losers _ before) by (intros t Ht; apply Hnear, in_or_app; auto).
  cbn [map combine].
  change (accumulate (intersect s o d) vzero
            ((intersect s o d, shade) :: combine (map (fun sphere => intersect sphere o d) after) sh3))
    with (accumulate (intersect s o d)
            (if selected (intersect s o d) (intersect s o d) then vadd vzero shade else vzero)
            (combine (map (fun sphere => intersect sphere o d) after) sh3)).
  rewrite (proj2 (selected_true _ _)) by auto.
  rewrite (accumulate_losers _ after) by (intros t Ht; apply Hnear, in_or_app; auto).
  rewrite vadd_zero_l. reflexivity.
Qed.

Lemma sphere_behind_distance : intersect sphere_behind vzero (mkVector3D 0 0 1) = 9.
Proof.
  destruct (intersect_aimed sphere_behind vzero (mkVector3D 0 0 1) 10) as [Hm Hi].
  - unit_vector.
  - apply vector_eq; simpl; ring.
  - simpl. lra.
  - rewrite Hi, Hm. simpl. ring.
Qed.

Lemma nearest_sphere_wins_witness :
  exists shade,
    outcome (light 2 unit_sphere_ahead vzero (mkVector3D 0 0 1)
               (intersect unit_sphere_ahead vzero (mkVector3D 0 0 1))
               [unit_sphere_ahead; sphere_behind] 0) = Ok shade /\
    outcome (raytrace 3 vzero (mkVector3D 0 0 1) [unit_sphere_ahead; sphere_behind] 0)
    = Ok shade.
Proof.
  apply (nearest_sphere_wins [] [sphere_behind] unit_sphere_ahead vzero
           (mkVector3D 0 0 1) 0).
  - repeat constructor; simpl; lra.
  - rewrite (proj1 unit_sphere_ahead_hit). unfold FAR_AWAY. lra.
  - intros t [<-|[]]. rewrite (proj1 unit_sphere_ahead_hit), sphere_behind_distance. lra.
  - apply le_n.
Defined.

(** ** The cost of a ray *)

(** The number of invocations of [raytrace] caused by one ray depends only
    on the size of the scene and on [bounce], never on what the ray hits:
    [1 + n + n * n] for a primary ray on [n] spheres, [1 + n] at
    [bounce = 1], and 1 from [bounce = 2] on. *)
Theorem tracer_invocation_count (scene : list Sphere) (o d : Vector3D)
    (bounce : Z) (fuel : nat) :
  scene <> [] -> Forall (fun s => radius s <> 0) scene ->
  (fuel_for bounce <= fuel)%nat ->
  let n := length scene in
  length (events (raytrace fuel o d scene bounce)) =
  trace_calls n (Z.to_nat (2 - bounce)) /\
  trace_calls n 2 = (1 + n + n * n)%nat /\
  trace_calls n 1 = (1 + n)%nat /\
  trace_calls n 0 = 1%nat.
Proof.
  intros Hne Hr Hf n. split.
  - rewrite (raytrace_enough_fuel fuel o d scene bounce Hf). unfold fuel_for.
    apply raytrace_call_count; auto. apply fuel_for_covers.
  - simpl. repeat split; lia.
Qed.

Lemma tracer_invocation_count_witness :
  length (events (raytrace 5 vzero (mkVector3D 0 1 0) twins 1)) = 3%nat.
Proof.
  destruct twins_ok as (Hne & Hr & _ & _).
  apply (tracer_invocation_count twins vzero (mkVector3D 0 1 0) 1 5 Hne Hr).
  cbv. lia.
Defined.

(** ** CheckeredSphere.diffuse_color, the function of the class body *)

Lemma astype_int_opp (r : R) : astype_int (- r) = (- astype_int r)%Z.
Proof.
  unfold astype_int.
  destruct (Rltb (- r) 0) eqn:E1; destruct (Rltb r 0) eqn:E2;
    repeat match goal with
           | H : Rltb _ _ = true |- _ => apply Rltb_true in H
           | H : Rltb _ _ = false |- _ => apply Rltb_false in H
           end.
  - lra.
  - apply ZceilN.
  - apply ZfloorN.
  - assert (r = 0) by lra. subst r. rewrite Ropp_0.
    change 0 with (IZR 0). rewrite ZfloorZ. reflexivity.
Qed.

Lemma mod2_opp (n : Z) : ((- n) mod 2 = n mod 2)%Z.
Proof.
  rewrite !Zmod_even, Z.even_opp. reflexivity.
Qed.

Lemma astype_int_nonneg (r : R) : 0 <= r -> astype_int r = Zfloor r.
Proof. intros H. unfold astype_int. rewrite (proj2 (Rltb_false r 0) H). reflexivity. Qed.

(** The checker function returns the base colour or black.  Because
    [astype(int)] truncates toward zero, its pattern is symmetric under a
    change of sign of [x] or of [z], and it is the parity of
    [floor(2x)] against [floor(2z)] where both coordinates are
    non-negative. *)
Theorem checker_function_pattern (self : Sphere) (x y z : R) :
  (CheckeredSphere_diffuse_color self (mkVector3D x y z) = diffuse_color self \/
   CheckeredSphere_diffuse_color self (mkVector3D x y z) = vzero) /\
  CheckeredSphere_diffuse_color self (mkVector3D (- x) y z) =
  CheckeredSphere_diffuse_color self (mkVector3D x y z) /\
  CheckeredSphere_diffuse_color self (mkVector3D x y (- z)) =
  CheckeredSphere_diffuse_color self (mkVector3D x y z) /\
  (0 <= x -> 0 <= z ->
   CheckeredSphere_diffuse_color self (mkVector3D x y z) =
   spec_checkered_diffuse self (mkVector3D x y z)).
Proof.
  unfold CheckeredSphere_diffuse_color, spec_checkered_diffuse, checker_parity_equal.
  cbn [vx vz]. split; [|split; [|split]].
  - destruct (Z.eqb _ _); [left; apply vmul_1|right; apply vmul_0].
  - replace (- x * 2) with (- (x * 2)) by ring.
    rewrite astype_int_opp, mod2_opp. reflexivity.
  - replace (- z * 2) with (- (z * 2)) by ring.
    rewrite astype_int_opp, mod2_opp. reflexivity.
  - intros Hx Hz. rewrite !astype_int_nonneg by lra.
    replace (x * 2) with (2 * x) by ring. replace (z * 2) with (2 * z) by ring.
    destruct (Z.eqb _ _); [apply vmul_1|apply vmul_0].
Qed.

Lemma checker_function_pattern_witness :
  CheckeredSphere_diffuse_color checkered_floor (mkVector3D 0.6 (-0.5) 0.1) =
  spec_checkered_diffuse checkered_floor (mkVector3D 0.6 (-0.5) 0.1).
Proof.
  apply (proj2 (proj2 (proj2 (checker_function_pattern checkered_floor 0.6 (-0.5) 0.1))));
    lra.
Defined.

(** ** The driver *)

Lemma nth_error_map_seq {A} (f : nat -> A) (n i : nat) :
  (i < n)%nat -> nth_error (map f (seq 0 n)) i = Some (f i).
Proof.
  intros Hi. rewrite nth_error_map.
  rewrite (nth_error_nth' (seq 0 n) 0%nat) by (rewrite length_seq; exact Hi).
  rewrite seq_nth by exact Hi. reflexivity.
Qed.

(** [linspace] yields [num] samples; with at least two samples they are
    evenly spaced from [start] to [stop], both ends included. *)
Lemma linspace_samples (start stop : R) (num i : nat) :
  (2 <= num)%nat -> (i < num)%nat ->
  length (linspace start stop num) = num /\
  nth_error (linspace start stop num) i =
  Some (start + INR i * ((stop - start) / INR (num - 1))) /\
  nth_error (linspace start stop num) 0 = Some start /\
  nth_error (linspace start stop num) (num - 1) = Some stop.
Proof.
  intros Hn Hi.
  assert (Hdiv : (0 <? num - 1)%nat = true) by (apply Nat.ltb_lt; lia).
  assert (Hone : (1 <? num)%nat = true) by (apply Nat.ltb_lt; lia).
  assert (Hpos : 0 < INR (num - 1)) by (apply lt_0_INR; lia).
  assert (Hnth : forall j, (j < num)%nat ->
            nth_error (linspace start stop num) j =
            Some (start + INR j * ((stop - start) / INR (num - 1)))).
  { intros j Hj. unfold linspace. rewrite nth_error_map_seq by exact Hj.
    rewrite Hdiv, Hone. cbn [andb].
    destruct (Nat.eqb j (num - 1)) eqn:E; [|reflexivity].
    apply Nat.eqb_eq in E. subst j. f_equal. field. lra. }
  split; [unfold linspace; rewrite length_map, length_seq; reflexivity|].
  split; [apply Hnth; exact Hi|]. split.
  - rewrite Hnth by lia. f_equal. simpl. ring.
  - rewrite Hnth by lia. f_equal. field. lra.
Qed.

Lemma length_tile {A} (a : list A) (reps : nat) :
  length (tile a reps) = (reps * length a)%nat.
Proof.
  unfold tile. induction reps as [|reps IH]; simpl; [reflexivity|].
  rewrite length_app, IH. reflexivity.
Qed.

Lemma length_repeat_each {A} (a : list A) (n : nat) :
  length (repeat_each a n) = (length a * n)%nat.
Proof.
  unfold repeat_each. induction a as [|x a IH]; simpl; [reflexivity|].
  rewrite length_app, repeat_length, IH. reflexivity.
Qed.

Lemma nth_error_tile {A} (a : list A) (reps r c : nat) :
  (r < reps)%nat -> (c < length a)%nat ->
  nth_error (tile a reps) (r * length a + c) = nth_error a c.
Proof.
  unfold tile. revert r. induction reps as [|reps IH]; intros r Hr Hc; [lia|].
  simpl. destruct r as [|r].
  - simpl. apply nth_error_app1. exact Hc.
  - rewrite nth_error_app2 by (simpl; lia).
    replace (S r * length a + c - length a)%nat with (r * length a + c)%nat
      by (simpl; lia).
    apply IH; [lia|exact Hc].
Qed.

Lemma nth_error_repeat_each {A} (a : list A) (n r c : nat) :
  (c < n)%nat ->
  nth_error (repeat_each a n) (r * n + c) = nth_error a r.
Proof.
  unfold repeat_each. revert r. induction a as [|x a IH]; intros r Hc.
  - simpl. destruct (r * n + c)%nat, r; reflexivity.
  - simpl. destruct r as [|r].
    + simpl. rewrite nth_error_app1 by (rewrite repeat_length; exact Hc).
      apply nth_error_repeat. exact Hc.
    + rewrite nth_error_app2 by (rewrite repeat_length; simpl; lia).
      rewrite repeat_length.
      replace (S r * n + c - n)%nat with (r * n + c)%nat by (simpl; lia).
      apply IH. exact Hc.
Qed.

Lemma nth_error_combine {A B} (l : list A) (m : list B) (k : nat) (a : A) (b : B) :
  nth_error l k = Some a -> nth_error m k = Some b ->
  nth_error (combine l m) k = Some (a, b).
Proof.
  revert m k. induction l as [|x l IH]; intros [|y m] [|k] Ha Hb;
    simpl in *; try discriminate.
  - congruence.
  - apply IH; assumption.
Qed.

Lemma pixel_grid_entries (w h r c : nat) :
  (r < h)%nat -> (c < w)%nat ->
  length (pixel_coordinates_of w h) = (w * h)%nat /\
  exists x y,
    nth_error (linspace (-1) 1 w) c = Some x /\
    nth_error (linspace (1 / (INR w / INR h) + 0.25) (-1 / (INR w / INR h) + 0.25) h) r
    = Some y /\
    nth_error (pixel_coordinates_of w h) (r * w + c) = Some (mkVector3D x y 0).
Proof.
  intros Hr Hc. unfold pixel_coordinates_of, x_coordinates_of, y_coordinates_of,
    screen_coordinates_of.
  set (xs := linspace (-1) 1 w).
  set (ys := linspace (1 / (INR w / INR h) + 0.25) (-1 / (INR w / INR h) + 0.25) h).
  assert (Lx : length xs = w) by (unfold xs, linspace; rewrite length_map, length_seq; reflexivity).
  assert (Ly : length ys = h) by (unfold ys, linspace; rewrite length_map, length_seq; reflexivity).
  split.
  - rewrite length_map, length_combine, length_tile, length_repeat_each, Lx, Ly.
    rewrite (Nat.mul_comm h w). apply Nat.min_id.
  - destruct (nth_error xs c) as [x|] eqn:Ex;
      [|apply nth_error_None in Ex; lia].
    destruct (nth_error ys r) as [y|] eqn:Ey;
      [|apply nth_error_None in Ey; lia].
    exists x, y. split; [reflexivity|]. split; [reflexivity|].
    rewrite nth_error_map.
    rewrite (nth_error_combine _ _ _ x y); [reflexivity| |].
    + rewrite <- Lx at 1. rewrite nth_error_tile by lia. exact Ex.
    + rewrite nth_error_repeat_each by lia. exact Ey.
Qed.

(** The pixel grid is in row-major order with one entry per pixel: for an
    image of at least 2 by 2 pixels, entry [r * w + c] is the point of the
    screen plane [z = 0] whose [x] runs evenly from -1 (column 0) to 1
    (last column) and whose [y] runs evenly from the top bound (row 0) to
    the bottom bound (last row). *)
Theorem pixel_grid_layout (w h r c : nat) :
  (2 <= w)%nat -> (2 <= h)%nat -> (r < h)%nat -> (c < w)%nat ->
  let top := 1 / (INR w / INR h) + 0.25 in
  let bottom := -1 / (INR w / INR h) + 0.25 in
  length (pixel_coordinates_of w h) = (w * h)%nat /\
  nth_error (pixel_coordinates_of w h) (r * w + c) =
  Some (mkVector3D (-1 + INR c * ((1 - -1) / INR (w - 1)))
                   (top + INR r * ((bottom - top) / INR (h - 1))) 0) /\
  nth_error (pixel_coordinates_of w h) (0 * w + 0) = Some (mkVector3D (-1) top 0) /\
  nth_error (pixel_coordinates_of w h) ((h - 1) * w + (w - 1)) =
  Some (mkVector3D 1 bottom 0).
Proof.
  intros Hw Hh Hr Hc top bottom.
  assert (Hat : forall r' c', (r' < h)%nat -> (c' < w)%nat ->
            nth_error (pixel_coordinates_of w h) (r' * w + c') =
            Some (mkVector3D (-1 + INR c' * ((1 - -1) / INR (w - 1)))
                             (top + INR r' * ((bottom - top) / INR (h - 1))) 0)).
  { intros r' c' Hr' Hc'.
    destruct (pixel_grid_entries w h r' c' Hr' Hc') as (_ & x & y & Hx & Hy & Hxy).
    rewrite (proj1 (proj2 (linspace_samples (-1) 1 w c' Hw Hc'))) in Hx.
    pose proof (proj1 (proj2 (linspace_samples top bottom h r' Hh Hr'))) as Hy'.
    unfold top, bottom in Hy'. rewrite Hy' in Hy.
    injection Hx as <-. injection Hy as <-. exact Hxy. }
  assert (Hw1 : 0 < INR (w - 1)) by (apply lt_0_INR; lia).
  assert (Hh1 : 0 < INR (h - 1)) by (apply lt_0_INR; lia).
  split; [apply (pixel_grid_entries w h r c Hr Hc)|].
  split; [apply Hat; assumption|]. split.
  - rewrite Hat by lia. f_equal. apply vector_eq; simpl; ring.
  - rewrite Hat by lia. f_equal. apply vector_eq; simpl; field; lra.
Qed.

Lemma pixel_grid_layout_witness :
  length pixel_coordinates = (width * height)%nat /\
  nth_error pixel_coordinates (0 * width + 0) =
  Some (mkVector3D (-1) (1 / (INR width / INR height) + 0.25) 0).
Proof.
  assert (H2 : (2 <= 400)%nat) by (repeat constructor).
  assert (H0 : (0 < 400)%nat) by (apply Nat.lt_le_trans with 2%nat; [repeat constructor|exact H2]).
  pose proof (pixel_grid_layout width height 0 0 H2 H2 H0 H0) as H.
  cbv zeta in H. destruct H as (Hlen & _ & Hfirst & _).
  split; [exact Hlen|exact Hfirst].
Defined.

Lemma clip_unit_range (c : R) : 0 <= clip c 0 1 <= 1.
Proof. split; [apply clip_unit_nonneg|unfold clip; apply Rmin_r]. Qed.

Lemma clip_monotone (c c' : R) : c <= c' -> clip c 0 1 <= clip c' 0 1.
Proof.
  intros H. unfold clip. apply Rle_min_compat_r. apply Rle_max_compat_r. exact H.
Qed.

(** In this model the byte is the floor of the exact product; the program
    rounds the product to binary64 before it truncates.  The statements
    below use the model only through facts that rounding preserves: the
    bounds, the order, and the values at the two ends. *)
Lemma pixel_byte_model (c : R) :
  pixel_byte c = Zfloor (255 * clip c 0 1) /\ (0 <= pixel_byte c <= 255)%Z.
Proof.
  destruct (clip_unit_range c) as [H0 H1].
  assert (Hlo : (0 <= Zfloor (255 * clip c 0 1))%Z).
  { apply Zfloor_lub. simpl. lra. }
  assert (Hhi : (Zfloor (255 * clip c 0 1) <= 255)%Z).
  { apply Z.le_trans with (Zfloor (IZR 255)); [apply Zfloor_le; lra|].
    rewrite ZfloorZ. apply Z.le_refl. }
  assert (He : pixel_byte c = Zfloor (255 * clip c 0 1)).
  { unfold pixel_byte, astype_uint8. rewrite astype_int_nonneg by lra.
    apply Z.mod_small. lia. }
  rewrite He. split; [reflexivity|lia].
Qed.

Lemma pixel_byte_bounds (c : R) : (0 <= pixel_byte c <= 255)%Z.
Proof. apply pixel_byte_model. Qed.

(** A channel is turned into a byte without wrap-around: the byte is
    between 0 and 255, monotone in the channel, 0 for channels up to 0 and
    255 for channels from 1 on. *)
Theorem pixel_byte_range :
  (forall c, (0 <= pixel_byte c <= 255)%Z) /\
  (forall c c', c <= c' -> (pixel_byte c <= pixel_byte c')%Z) /\
  (forall c, c <= 0 -> pixel_byte c = 0%Z) /\
  (forall c, 1 <= c -> pixel_byte c = 255%Z).
Proof.
  split; [exact pixel_byte_bounds|]. split; [|split].
  - intros c c' H. rewrite (proj1 (pixel_byte_model c)), (proj1 (pixel_byte_model c')).
    apply Zfloor_le. pose proof (clip_monotone c c' H). lra.
  - intros c H. rewrite (proj1 (pixel_byte_model c)).
    unfold clip. rewrite Rmax_right by exact H. rewrite Rmin_left by lra.
    rewrite Rmult_0_r. apply (ZfloorZ 0).
  - intros c H. rewrite (proj1 (pixel_byte_model c)).
    unfold clip. rewrite Rmax_left by lra. rewrite Rmin_right by exact H.
    rewrite Rmult_1_r. apply (ZfloorZ 255).
Qed.

Lemma pixel_byte_range_witness :
  (pixel_byte 0.25 <= pixel_byte 0.5)%Z /\ pixel_byte (-1) = 0%Z /\
  pixel_byte 7 = 255%Z.
Proof.
  destruct pixel_byte_range as (_ & Hmono & Hlow & Hhigh).
  split; [apply Hmono; lra|]. split; [apply Hlow; lra | apply Hhigh; lra].
Defined.

(** Rendering the scene of the script cannot fail: for every pixel the
    tracer returns a colour as soon as it has fuel 3, at the cost of 21
    invocations, no channel of it is negative, and the three bytes written
    to the image are between 0 and 255. *)
Theorem render_never_fails (fuel : nat) (pixel : Vector3D) :
  (3 <= fuel)%nat ->
  exists color,
    outcome (pixel_color fuel pixel) = Ok color /\
    length (events (pixel_color fuel pixel)) = 21%nat /\
    nonneg_color color /\
    let '(r, g, b) := pixel_bytes color in
    (0 <= r <= 255)%Z /\ (0 <= g <= 255)%Z /\ (0 <= b <= 255)%Z.
Proof.
  intros Hf. unfold pixel_color.
  rewrite (raytrace_enough_fuel fuel _ _ scene_objects 0 Hf). change (fuel_for 0) with 3%nat.
  destruct (scene_objects_rendered (primary_direction pixel)) as (color & Hout & Hlen).
  exists color. split; [exact Hout|]. split; [exact Hlen|]. split.
  - exact (raytrace_nonneg 3 scene_objects scene_objects_materials _ _ _ _ Hout).
  - unfold pixel_bytes, components.
    repeat split; apply pixel_byte_bounds.
Qed.

Lemma render_never_fails_witness :
  exists color, outcome (pixel_color 3 (mkVector3D 0 0.25 0)) = Ok color.
Proof.
  destruct (render_never_fails 3 (mkVector3D 0 0.25 0) (le_n 3)) as (color & H & _).
  exists color. exact H.
Defined.

(** * The numeric kernel in binary64 *)

Module Binary64Facts.
Import PrimFloat.
Import Binary64.
Local Open Scope float_scope.
Local Set Warnings "-inexact-float".

(** ** From a check to a statement *)

Lemma in_zrange (lo hi i : Z) : (lo <= i <= hi)%Z -> In i (zrange lo hi).
Proof.
  intros H. unfold zrange. apply in_map_iff.
  exists (Z.to_nat (i - lo)). split; [lia|]. apply in_seq. lia.
Qed.

Lemma all_in_spec (lo hi : Z) (P : Z -> bool) (i : Z) :
  all_in lo hi P = true -> (lo <= i <= hi)%Z -> P i = true.
Proof.
  unfold all_in. rewrite forallb_forall. intros H Hi. apply H, in_zrange, Hi.
Qed.

Lemma on_axes_spec (P : Z -> Z -> bool) (axis sign : Z) :
  on_axes P = true -> (0 <= axis <= 2)%Z -> sign = 1%Z \/ sign = (-1)%Z ->
  P axis sign = true.
Proof.
  intros H Haxis Hsign. unfold on_axes in H.
  pose proof (all_in_spec _ _ _ axis H Haxis) as Hs. cbv beta in Hs.
  rewrite forallb_forall in Hs. apply Hs.
  destruct Hsign as [-> | ->]; [left | right; left]; reflexivity.
Qed.

Lemma same_eq (a b : float) : same a b = true -> a = b.
Proof. apply FloatAxioms.Leibniz.eqb_spec. Qed.

Lemma vsame_eq (v w : Vector3D) : vsame v w = true -> v = w.
Proof.
  destruct v as [a b c], w as [a' b' c']. unfold vsame. cbn [x y z].
  rewrite !andb_true_iff. intros [[Ha Hb] Hc].
  apply same_eq in Ha, Hb, Hc. subst. reflexivity.
Qed.

(** ** Comparisons with zero *)



(** ** [Vector3D.norm] *)

Lemma norm_divisor_not_zero (v : Vector3D) : (norm_divisor v =? 0) = false.
Proof.
  unfold norm_divisor. cbv zeta.
  destruct (sqrt (vabs v) =? 0) eqn:E; [reflexivity | exact E].
Qed.

Lemma norm_guard_fires (v : Vector3D) :
  (sqrt (vabs v) =? 0) = true -> norm v = vmul v 1.
Proof.
  intros H. unfold norm, norm_divisor. cbv zeta. rewrite H. reflexivity.
Qed.

Lemma norm_guard_idle (v : Vector3D) :
  (sqrt (vabs v) =? 0) = false -> norm v = vmul v (1 / sqrt (vabs v)).
Proof.
  intros H. unfold norm, norm_divisor. cbv zeta. rewrite H. reflexivity.
Qed.

(** The powers of two along the axes: normalised exactly, left unchanged by
    the guard, or flushed to zero, by the exponent. *)
Lemma norm_pow2_family_holds :
  on_axes (fun axis sign =>
    all_in (-537) 511 (norm_pow2_unit axis sign) &&
    all_in (-1074) (-538) (norm_pow2_unchanged axis sign) &&
    all_in 512 1023 (norm_pow2_vanishes axis sign)) = true.
Proof. vm_compute. reflexivity. Qed.

(** The vectors of small integer components. *)
Lemma norm_integer_family_holds :
  all_in (-10) 10 (fun a => all_in (-10) 10 (fun b => all_in (-10) 10 (fun c =>
    norm_integer_close a b c))) = true.
Proof. vm_compute. reflexivity. Qed.

Lemma norm_pow2_cases (axis sign : Z) :
  (0 <= axis <= 2)%Z -> sign = 1%Z \/ sign = (-1)%Z ->
  all_in (-537) 511 (norm_pow2_unit axis sign) = true /\
  all_in (-1074) (-538) (norm_pow2_unchanged axis sign) = true /\
  all_in 512 1023 (norm_pow2_vanishes axis sign) = true.
Proof.
  intros Haxis Hsign.
  pose proof (on_axes_spec _ axis sign norm_pow2_family_holds Haxis Hsign) as H.
  cbv beta in H. rewrite !andb_true_iff in H. tauto.
Qed.

(** ** [Sphere.intersect] *)











(** ** The claims on the numeric kernel *)

(** C9.  [norm] multiplies the vector by [1 / divisor], where the divisor
    is the square root of the squared norm, replaced by 1 when that computed
    square root is exactly 0.  The divisor is never 0, and the zero vector
    comes back as the zero vector.  When the guard fires the vector is
    multiplied by 1, and otherwise by 1 over the square root.  The result has magnitude 1 only up to rounding, and
    only while the squared norm neither underflows nor overflows:
    - [(3, 0, 4)] is normalised to [(0.60000000000000009, 0,
      0.80000000000000004)];
    - for a nonzero vector of integer components between -10 and 10 the
      magnitude of the result is within [2 ^ -52] of 1;
    - [+- 2 ^ j] along an axis is normalised to the unit vector of that axis,
      exactly, for [-537 <= j <= 511];
    - for [-1074 <= j <= -538] the squared norm underflows to 0, the guard
      fires, and the nonzero vector comes back unchanged;
    - for [512 <= j <= 1023] the squared norm overflows and the nonzero
      vector is normalised to the zero vector. *)
Theorem C9_norm_guarded_division_binary64 :
  (forall v, norm v = vmul v (1 / norm_divisor v)) /\
  (forall v, norm_divisor v =
             if sqrt (vabs v) =? 0 then 1 else sqrt (vabs v)) /\
  (forall v, (norm_divisor v =? 0) = false) /\
  (forall v, (sqrt (vabs v) =? 0) = true -> norm v = vmul v 1) /\
  (forall v, (sqrt (vabs v) =? 0) = false ->
             norm v = vmul v (1 / sqrt (vabs v))) /\
  norm (mkVector3D 0 0 0) = mkVector3D 0 0 0 /\
  norm (mkVector3D 3 0 4) =
    mkVector3D 0.60000000000000009 0 0.80000000000000004 /\
  (forall a b c : Z,
      (-10 <= a <= 10)%Z -> (-10 <= b <= 10)%Z -> (-10 <= c <= 10)%Z ->
      (a, b, c) <> (0, 0, 0)%Z ->
      (abs (magnitude (norm (integer_vector a b c)) - 1) <=? epsilon) = true) /\
  (forall axis sign j : Z,
      (0 <= axis <= 2)%Z -> sign = 1%Z \/ sign = (-1)%Z ->
      (-537 <= j <= 511)%Z ->
      norm (pow2_vector axis sign j) = axis_vector axis (of_Z sign) /\
      magnitude (norm (pow2_vector axis sign j)) = 1) /\
  (forall axis sign j : Z,
      (0 <= axis <= 2)%Z -> sign = 1%Z \/ sign = (-1)%Z ->
      (-1074 <= j <= -538)%Z ->
      (of_Z sign * pow2 j =? 0) = false /\
      magnitude (pow2_vector axis sign j) = 0 /\
      norm (pow2_vector axis sign j) = pow2_vector axis sign j) /\
  (forall axis sign j : Z,
      (0 <= axis <= 2)%Z -> sign = 1%Z \/ sign = (-1)%Z ->
      (512 <= j <= 1023)%Z ->
      (of_Z sign * pow2 j =? 0) = false /\
      norm (pow2_vector axis sign j) = axis_vector axis (of_Z sign * 0)).
Proof.
  split; [reflexivity|].
  split; [reflexivity|].
  split; [exact norm_divisor_not_zero|].
  split; [exact norm_guard_fires|].
  split; [exact norm_guard_idle|].
  split; [vm_compute; reflexivity|].
  split; [vm_compute; reflexivity|].
  split.
  { intros a b c Ha Hb Hc Hne.
    pose proof (all_in_spec _ _ _ a norm_integer_family_holds Ha) as H1.
    cbv beta in H1.
    pose proof (all_in_spec _ _ _ b H1 Hb) as H2. cbv beta in H2.
    pose proof (all_in_spec _ _ _ c H2 Hc) as H3. cbv beta in H3.
    unfold norm_integer_close in H3. apply orb_true_iff in H3.
    destruct H3 as [H3 | H3]; [|exact H3].
    rewrite !andb_true_iff in H3. destruct H3 as [[E1 E2] E3].
    apply Z.eqb_eq in E1, E2, E3. subst. exfalso. apply Hne. reflexivity. }
  split.
  { intros axis sign j Haxis Hsign Hj.
    destruct (norm_pow2_cases axis sign Haxis Hsign) as (H & _ & _).
    pose proof (all_in_spec _ _ _ j H Hj) as Hc.
    unfold norm_pow2_unit in Hc. cbv zeta in Hc.
    apply andb_true_iff in Hc. destruct Hc as [Hv Hm].
    split; [apply vsame_eq, Hv | apply same_eq, Hm]. }
  split.
  { intros axis sign j Haxis Hsign Hj.
    destruct (norm_pow2_cases axis sign Haxis Hsign) as (_ & H & _).
    pose proof (all_in_spec _ _ _ j H Hj) as Hc.
    unfold norm_pow2_unchanged in Hc. cbv zeta in Hc.
    rewrite !andb_true_iff in Hc. destruct Hc as [[Hz Hm] Hv].
    split; [apply negb_true_iff, Hz|].
    split; [apply same_eq, Hm | apply vsame_eq, Hv]. }
  { intros axis sign j Haxis Hsign Hj.
    destruct (norm_pow2_cases axis sign Haxis Hsign) as (_ & _ & H).
    pose proof (all_in_spec _ _ _ j H Hj) as Hc.
    unfold norm_pow2_vanishes in Hc. cbv zeta in Hc.
    apply andb_true_iff in Hc. destruct Hc as [Hz Hv].
    split; [apply negb_true_iff, Hz | apply vsame_eq, Hv]. }
Qed.

Lemma C9_norm_guarded_division_binary64_witness :
  norm (pow2_vector 0 1 3) = axis_vector 0 (of_Z 1) /\
  norm (pow2_vector 2 (-1) (-600)) = pow2_vector 2 (-1) (-600) /\
  norm (pow2_vector 1 1 600) = axis_vector 1 (of_Z 1 * 0) /\
  (abs (magnitude (norm (integer_vector 1 2 3)) - 1) <=? epsilon) = true.
Proof.
  destruct C9_norm_guarded_division_binary64
    as (_ & _ & _ & _ & _ & _ & _ & Hint & Hunit & Hunder & Hover).
  split; [apply (Hunit 0%Z 1%Z 3%Z); [lia | left; reflexivity | lia]|].
  split; [apply (Hunder 2%Z (-1)%Z (-600)%Z); [lia | right; reflexivity | lia]|].
  split; [apply (Hover 1%Z 1%Z 600%Z); [lia | left; reflexivity | lia]|].
  apply (Hint 1%Z 2%Z 3%Z); [lia | lia | lia | discriminate].
Defined.

(** The claim C9 as stated fails in binary64.  The vector [(1e-200, 0, 0)]
    is not zero; its squared norm underflows to 0, so the guard fires and
    [norm] returns it unchanged, at a computed magnitude of 0 and a true
    magnitude of 1e-200.  The vector [(1e200, 0, 0)] is normalised to the
    zero vector.  And [(0.1, 0.2, 0.3)] is normalised to a vector whose
    computed magnitude is 0.99999999999999989. *)
Lemma C9_counterexample_binary64 :
  (x (mkVector3D 1e-200 0 0) =? 0) = false /\
  norm (mkVector3D 1e-200 0 0) = mkVector3D 1e-200 0 0 /\
  magnitude (norm (mkVector3D 1e-200 0 0)) = 0 /\
  (x (mkVector3D 1e200 0 0) =? 0) = false /\
  norm (mkVector3D 1e200 0 0) = mkVector3D 0 0 0 /\
  magnitude (norm (mkVector3D 0.1 0.2 0.3)) = 0.99999999999999989 /\
  (magnitude (norm (mkVector3D 0.1 0.2 0.3)) =? 1) = false.
Proof. repeat apply conj; vm_compute; reflexivity. Qed.







End Binary64Facts.
